(** * Sequelize-ORM tutorial: the startup script [index.js] and the CRUD
      handlers of the [app.js] listing in [README.md]

    The development has four layers.
    - [JS]: the JavaScript values the program moves around (objects are
      finite maps from property names to values; a property that is
      [undefined] is an absent key).
    - [Node]: the effects of the process: console, database round-trips,
      HTTP responses, listening sockets, floating promises.
    - [Sequelize] and [Express]: the library calls the two scripts make,
      at the level of their documented contract.
    - [Index] and [Readme]: the two scripts themselves. *)

From Stdlib Require Import ZArith Ascii String List Lia Bool.
From stdpp Require Import base gmap strings list fin_maps.

Local Open Scope Z_scope.
Local Open Scope string_scope.

Set Warnings "-clear-no-such-hyp".

(* ===================================================================== *)
(** ** JavaScript values                                                  *)
(* ===================================================================== *)

Module JS.

Inductive value :=
| JNull
| JNum (n : Z)
| JStr (s : string)
| JDate (t : Z).

#[global] Instance value_eq_dec : EqDecision value.
Proof. solve_decision. Defined.

(** An object literal; [o !! "k" = None] reads as [o.k === undefined]. *)
Abbreviation obj := (gmap string value).

(** [const { k1, k2 } = o; ... { k1, k2 }]: the object rebuilt from the
    listed properties of [o]; a property [o] lacks stays undefined. *)
Fixpoint pick (keys : list string) (o : obj) : obj :=
  match keys with
  | [] => ∅
  | k :: ks =>
      match o !! k with
      | Some v => <[k := v]> (pick ks o)
      | None => pick ks o
      end
  end.

End JS.
Import JS.

(* ===================================================================== *)
(** ** The Node process: state, exceptions, promises                      *)
(* ===================================================================== *)

Module Node.

Inductive error :=
| ConnectionError
| ValidationError (attr : string)
| UniqueConstraintError (attr : string).

Definition show_error (e : error) : string :=
  match e with
  | ConnectionError => "SequelizeConnectionError"
  | ValidationError a => "SequelizeValidationError: " ++ a ++ " cannot be null"
  | UniqueConstraintError a => "SequelizeUniqueConstraintError: " ++ a ++ " must be unique"
  end.

Inductive result (A : Type) :=
| Ok (a : A)
| Throw (e : error).
Arguments Ok {A} a.
Arguments Throw {A} e.

(** What a handler hands to [res]. *)
Inductive payload :=
| Json (o : obj)
| JsonList (l : list obj)
| Text (s : string).

Record response := mkResponse { status : Z; content : payload }.

(** What is sent to the database server, one entry per step of the
    library: a statement, or for [CreateOrAlterTable] the statements that
    give the table these columns (CREATE TABLE when the inspection found
    no table, the ADD, DROP and CHANGE COLUMN statements when it found
    one). *)
Inductive sql :=
| SelectOne
| ShowTable (t : string)
| DropTableIfExists (t : string)
| CreateTableIfNotExists (t : string) (columns : list string)
| CreateOrAlterTable (t : string) (columns : list string)
| Insert (t : string)
| SelectAll (t : string)
| SelectByPk (t : string) (k : Z)
| Update (t : string) (k : Z)
| Delete (t : string) (k : Z).

Record world := mkWorld {
  table : gmap Z obj;      (* the rows of the model's table, by primary key *)
  next_id : Z;             (* the table's AUTO_INCREMENT counter *)
  now : Z;                 (* the clock *)
  up : nat -> bool;        (* does the n-th round-trip reach the server? *)
  tick : nat;              (* round-trips made so far *)
  queries : list (string * sql);   (* (dialect, statement) sent, oldest first *)
  console : list string;   (* lines written by console.log / console.error *)
  responses : list response;       (* HTTP responses sent, oldest first *)
  listening : list Z;      (* ports the process listens on *)
  exited : option error    (* an uncaught exception or unhandled rejection *)
}.

Definition set_table (f : gmap Z obj -> gmap Z obj) (w : world) : world :=
  mkWorld (f (table w)) (next_id w) (now w) (up w) (tick w) (queries w)
          (console w) (responses w) (listening w) (exited w).
Definition set_next_id (n : Z) (w : world) : world :=
  mkWorld (table w) n (now w) (up w) (tick w) (queries w)
          (console w) (responses w) (listening w) (exited w).
Definition sent (d : string) (q : sql) (w : world) : world :=
  mkWorld (table w) (next_id w) (now w) (up w) (S (tick w)) (queries w ++ [(d, q)])
          (console w) (responses w) (listening w) (exited w).
Definition logged (line : string) (w : world) : world :=
  mkWorld (table w) (next_id w) (now w) (up w) (tick w) (queries w)
          (console w ++ [line]) (responses w) (listening w) (exited w).
Definition responded (r : response) (w : world) : world :=
  mkWorld (table w) (next_id w) (now w) (up w) (tick w) (queries w)
          (console w) (responses w ++ [r]) (listening w) (exited w).
Definition bound (port : Z) (w : world) : world :=
  mkWorld (table w) (next_id w) (now w) (up w) (tick w) (queries w)
          (console w) (responses w) (listening w ++ [port]) (exited w).
Definition died (e : error) (w : world) : world :=
  mkWorld (table w) (next_id w) (now w) (up w) (tick w) (queries w)
          (console w) (responses w) (listening w) (Some e).

(** The process as it starts: nothing logged, sent or answered yet. The
    database (its rows, its counter), the clock and the network are what
    they are. *)
Definition boot (db : gmap Z obj) (counter : Z) (clock : Z) (net : nat -> bool) : world :=
  mkWorld db counter clock net 0 [] [] [] [] None.

(** Code that may throw and that reads and writes the process state: the
    body of an [async] function, with [await] as [bind]. *)
Definition Eff (A : Type) : Type := world -> result A * world.

Definition ret {A} (a : A) : Eff A := fun w => (Ok a, w).
Definition throw {A} (e : error) : Eff A := fun w => (Throw e, w).
Definition bind {A B} (m : Eff A) (k : A -> Eff B) : Eff B :=
  fun w => match m w with
           | (Ok a, w1) => k a w1
           | (Throw e, w1) => (Throw e, w1)
           end.

(** [try { m } catch (error) { h error }] *)
Definition try_catch {A} (m : Eff A) (h : error -> Eff A) : Eff A :=
  fun w => match m w with
           | (Ok a, w1) => (Ok a, w1)
           | (Throw e, w1) => h e w1
           end.

(** [p.then(f)] and [p.catch(g)] on a promise [p]. *)
Definition then_ {A B} (p : Eff A) (f : A -> Eff B) : Eff B := bind p f.
Definition catch_ {A} (p : Eff A) (g : error -> Eff A) : Eff A := try_catch p g.

(** A promise nobody awaits, started from inside other code: the code
    goes on; a rejection of the promise is an unhandled rejection. *)
Definition detach {A} (p : Eff A) : Eff unit :=
  fun w => match p w with
           | (Ok _, w1) => (Ok tt, w1)
           | (Throw e, w1) => (Ok tt, died e w1)
           end.

Definition get : Eff world := fun w => (Ok w, w).
Definition modify (f : world -> world) : Eff unit := fun w => (Ok tt, f w).

Definition console_log (line : string) : Eff unit := modify (logged line).
Definition console_error (line : string) : Eff unit := modify (logged line).

(** One round-trip to the database server: the statement is sent, and the
    call rejects when the server cannot be reached. *)
Definition roundtrip (dialect : string) (q : sql) : Eff unit :=
  fun w => if up w (tick w)
           then (Ok tt, sent dialect q w)
           else (Throw ConnectionError, sent dialect q w).

(** A top-level statement of a script: a call made now, or a promise
    chain left floating (nothing awaits it). *)
Inductive stmt :=
| Call (c : Eff unit)
| Floating (p : Eff unit).

Definition calls_of (s : list stmt) : list (Eff unit) :=
  omap (fun x => match x with Call c => Some c | Floating _ => None end) s.
Definition promises_of (s : list stmt) : list (Eff unit) :=
  omap (fun x => match x with Floating p => Some p | Call _ => None end) s.

(** Runs the listed computations in order; one that ends in [Throw] is an
    uncaught exception (or an unhandled rejection) and ends the process. *)
Fixpoint run_all (l : list (Eff unit)) (w : world) : world :=
  match l with
  | [] => w
  | c :: rest =>
      match exited w with
      | Some _ => w
      | None =>
          match c w with
          | (Ok _, w1) => run_all rest w1
          | (Throw e, w1) => died e w1
          end
      end
  end.

(** The script's synchronous statements run first; the promise chains it
    left floating settle afterwards, from the event loop. *)
Definition run (s : list stmt) (w : world) : world :=
  run_all (promises_of s) (run_all (calls_of s) w).

End Node.
Import Node.

Notation "'let!' x ':=' m 'in' k" := (bind m (fun x => k))
  (at level 10, x name, m at level 100, k at level 200).
Notation "m ';;' k" := (bind m (fun _ => k))
  (at level 100, k at level 200, right associativity).

(* ===================================================================== *)
(** ** Sequelize: the calls the scripts make                              *)
(* ===================================================================== *)

Module Sequelize.

Inductive datatype := INTEGER | STRING | DATE.

(** One entry of the attributes object handed to [define]. *)
Record attribute := mkAttribute {
  type : datatype;
  allowNull : bool;
  unique : bool;
  primaryKey : bool;
  autoIncrement : bool;
  defaultValue : option value
}.

(** An entry that gives only its type: every other key at the library's
    default. *)
Definition column (t : datatype) : attribute :=
  mkAttribute t true false false false None.

Record model_options := mkOptions {
  timestamps : bool;
  freezeTableName : bool
}.
Definition default_options : model_options := mkOptions true false.

Record sync_options := mkSync { force : bool; alter : bool }.

Record config := mkConfig {
  username : string;
  password : string;
  database : string;
  host : string;
  dialect : string
}.

(** [new Sequelize(config)] *)
Record connection := mkSequelize { options : config }.

Record model := mkModel {
  sequelize : connection;
  name : string;
  tableName : string;
  modelOptions : model_options;
  rawAttributes : list (string * attribute)
}.

Definition dialect_of (m : model) : string := dialect (options (sequelize m)).
Definition column_names (m : model) : list string := map fst (rawAttributes m).

Section Define.

(** The inflection the library applies to a model name that is not frozen. *)
Variable pluralize : string -> string.

(** [sequelize.define(modelName, attributes, options)]: the table is named
    after the model as it is when [freezeTableName] is set and after its
    plural otherwise; an [id] key is added in front when no attribute is a
    primary key; [createdAt] and [updatedAt] are added behind when
    [timestamps] is set. *)
Definition define (s : connection) (modelName : string)
    (attributes : list (string * attribute)) (o : model_options) : model :=
  mkModel s modelName
    (if freezeTableName o then modelName else pluralize modelName)
    o
    ((if existsb (fun na => primaryKey na.2) attributes then []
      else [("id", mkAttribute INTEGER false false true true None)])
     ++ attributes
     ++ (if timestamps o
         then [("createdAt", mkAttribute DATE false false false false None);
               ("updatedAt", mkAttribute DATE false false false false None)]
         else []))%list.

End Define.

Definition primaryKeyAttribute (m : model) : string :=
  match find (fun na => primaryKey na.2) (rawAttributes m) with
  | Some na => na.1
  | None => "id"
  end.

(** [Model.rawAttributes[n]] *)
Definition attribute_of (m : model) (n : string) : option attribute :=
  snd <$> find (fun na => bool_decide (na.1 = n)) (rawAttributes m).

(** [sequelize.authenticate()]: a test query. *)
Definition authenticate (s : connection) : Eff unit :=
  roundtrip (dialect (options s)) SelectOne.

(** What the server puts in a column it adds to the rows that are
    there: the attribute's default; without one NULL, or for a NOT NULL
    column the zero of its type. *)
Definition filler (a : attribute) : value :=
  match defaultValue a with
  | Some d => d
  | None =>
      if allowNull a then JNull
      else match type a with
           | INTEGER => JNum 0
           | STRING => JStr ""
           | DATE => JDate 0
           end
  end.

(** The row under key [k] after the table was altered to the model: the
    columns the model lacks are dropped; a column the row lacks is
    added, the primary key with the row's key, any other with the
    server's filler. *)
Definition conform (m : model) (k : Z) (row : obj) : obj :=
  foldr (fun na r =>
           match r !! na.1 with
           | Some _ => r
           | None => <[na.1 := if primaryKey na.2 then JNum k else filler na.2]> r
           end)
        (filter (fun nv => nv.1 ∈ column_names m) row)
        (rawAttributes m).

(** The table after it was altered to the model. *)
Definition alter_rows (m : model) (tbl : gmap Z obj) : gmap Z obj :=
  map_imap (fun k row => Some (conform m k row)) tbl.

(** [Model.sync(options)], as the comments of index.js put it:
    [sync()] creates the table if it does not exist, [force] drops it
    first if it already exists, [alter] performs the necessary changes on
    the table that is there. With [force] the table is dropped and
    created, and [alter] has nothing left to do. Without it the library
    first asks the server whether the table is there; with [alter] it
    then creates the table or alters the one it found, and the rows of a
    table that was found are kept, conformed to the model. *)
Definition sync (m : model) (o : sync_options) : Eff model :=
  let d := dialect_of m in
  let t := tableName m in
  (if force o
   then roundtrip d (DropTableIfExists t) ;;
        modify (set_table (fun _ => ∅)) ;;
        modify (set_next_id 1) ;;
        roundtrip d (CreateTableIfNotExists t (column_names m))
   else roundtrip d (ShowTable t) ;;
        if alter o
        then roundtrip d (CreateOrAlterTable t (column_names m)) ;;
             modify (set_table (alter_rows m))
        else roundtrip d (CreateTableIfNotExists t (column_names m))) ;;
  ret m.

(** [sequelize.sync(options)]: every model defined on the connection,
    one after the other. *)
Fixpoint sync_all (models : list model) (o : sync_options) : Eff unit :=
  match models with
  | [] => ret tt
  | m :: rest => sync m o ;; sync_all rest o
  end.

(** *** Rows *)

Definition is_null (v : option value) : bool :=
  match v with
  | None | Some JNull => true
  | Some _ => false
  end.

(** The values of a new instance: for each attribute of the model the
    value given, else the attribute's [defaultValue]; keys that are not
    attributes of the model are dropped. *)
Definition build (m : model) (values : obj) : obj :=
  foldr (fun na row =>
           match values !! na.1 with
           | Some v => <[na.1 := v]> row
           | None =>
               match defaultValue na.2 with
               | Some d => <[na.1 := d]> row
               | None => row
               end
           end) ∅ (rawAttributes m).

(** The timestamps a model with [timestamps] keeps. *)
Definition stamp_created (m : model) (t : Z) (row : obj) : obj :=
  if timestamps (modelOptions m)
  then <["updatedAt" := JDate t]> (<["createdAt" := JDate t]> row)
  else row.
Definition stamp_updated (m : model) (t : Z) (row : obj) : obj :=
  if timestamps (modelOptions m) then <["updatedAt" := JDate t]> row else row.

(** The row as the table stores it: a column without a value is NULL. *)
Definition complete (m : model) (row : obj) : obj :=
  foldr (fun na r =>
           match r !! na.1 with
           | Some _ => r
           | None => <[na.1 := JNull]> r
           end) row (rawAttributes m).

(** [allowNull: false]: the first such attribute (other than the
    generated key) whose value is missing or null. *)
Definition notNull_violation (m : model) (row : obj) : option string :=
  fst <$> find (fun na => negb (allowNull na.2) && negb (autoIncrement na.2)
                          && is_null (row !! na.1))
               (rawAttributes m).

(** The same check on the keys an update sets. *)
Definition notNull_violation_in (m : model) (changes : obj) : option string :=
  fst <$> find (fun na => negb (allowNull na.2)
                          && bool_decide (changes !! na.1 = Some JNull))
               (rawAttributes m).

(** Is the value [v] of column [n] already held by a row other than
    [self]? *)
Definition taken (tbl : gmap Z obj) (self : option Z) (n : string) (v : value) : bool :=
  bool_decide (map_Exists (fun k r => Some k ≠ self ∧ r !! n = Some v) tbl).

(** [unique: true]: the first such attribute whose (non-null) new value
    another row holds. *)
Definition unique_violation (m : model) (tbl : gmap Z obj) (self : option Z)
    (row : obj) : option string :=
  fst <$> find (fun na => unique na.2 &&
                          match row !! na.1 with
                          | Some v => negb (bool_decide (v = JNull)) && taken tbl self na.1 v
                          | None => false
                          end)
               (rawAttributes m).

(** *** Queries *)

(** Does the new row leave its key to the table's counter? *)
Definition generated (m : model) (row : obj) : bool :=
  match row !! primaryKeyAttribute m with
  | Some (JNum _) => false
  | _ => true
  end.

(** [Model.create(values)]: the instance is validated, then inserted.
    The table stores the row with NULL in the columns without a value;
    the instance that comes back has the attributes that were set and
    the key. A row rejected by a unique index has used up the number the
    counter gave it. *)
Definition create (m : model) (values : obj) : Eff obj :=
  let! w0 := get in
  let row := stamp_created m (now w0) (build m values) in
  match notNull_violation m row with
  | Some a => throw (ValidationError a)
  | None =>
      roundtrip (dialect_of m) (Insert (tableName m)) ;;
      let! w := get in
      match unique_violation m (table w) None row with
      | Some a =>
          (if generated m row
           then modify (set_next_id (next_id w + 1))
           else ret tt) ;;
          throw (UniqueConstraintError a)
      | None =>
          let pk := primaryKeyAttribute m in
          let k := match row !! pk with
                   | Some (JNum k) => k
                   | _ => next_id w
                   end in
          match table w !! k with
          | Some _ => throw (UniqueConstraintError pk)
          | None =>
              let instance := <[pk := JNum k]> row in
              modify (set_table (insert k (complete m instance))) ;;
              modify (set_next_id (Z.max (next_id w) (k + 1))) ;;
              ret instance
          end
      end
  end.

(** [Model.findAll()] *)
Definition findAll (m : model) : Eff (list obj) :=
  roundtrip (dialect_of m) (SelectAll (tableName m)) ;;
  let! w := get in
  ret (map snd (map_to_list (table w))).

(** [Model.findByPk(param)]; the result is [null] ([None]) when no row has
    that key, and also, without a query, when [param] is undefined. *)
Definition findByPk (m : model) (param : option Z) : Eff (option obj) :=
  match param with
  | None => ret None
  | Some k =>
      roundtrip (dialect_of m) (SelectByPk (tableName m) k) ;;
      let! w := get in
      ret (table w !! k)
  end.

(** The keys an update sets: those of [values] that are attributes of
    the model, never the primary key. *)
Definition changes_of (m : model) (values : obj) : obj :=
  filter (fun nv => nv.1 ∈ column_names m ∧ nv.1 ≠ primaryKeyAttribute m) values.

(** [instance.update(values)]: sets the given keys, validates them and
    saves the row. With no key to set the instance comes back as it is;
    with keys that all hold the values they are given, the instance comes
    back with its [updatedAt] moved on and nothing is sent. *)
Definition update (m : model) (inst : obj) (values : obj) : Eff obj :=
  let pk := primaryKeyAttribute m in
  let changes := changes_of m values in
  let! w0 := get in
  match notNull_violation_in m changes with
  | Some a => throw (ValidationError a)
  | None =>
      if bool_decide (changes = ∅) then ret inst
      else
        let row := stamp_updated m (now w0) (changes ∪ inst) in
        if bool_decide (changes ∪ inst = inst) then ret row
        else
          match inst !! pk with
          | Some (JNum k) =>
              roundtrip (dialect_of m) (Update (tableName m) k) ;;
              let! w := get in
              match unique_violation m (table w) (Some k) changes with
              | Some a => throw (UniqueConstraintError a)
              | None =>
                  modify (set_table (fun tbl =>
                            match tbl !! k with
                            | Some _ => <[k := row]> tbl
                            | None => tbl
                            end)) ;;
                  ret row
              end
          | _ => throw (ValidationError pk)
          end
  end.

(** [instance.destroy()] *)
Definition destroy (m : model) (inst : obj) : Eff unit :=
  match inst !! primaryKeyAttribute m with
  | Some (JNum k) =>
      roundtrip (dialect_of m) (Delete (tableName m) k) ;;
      modify (set_table (delete k))
  | _ => throw (ValidationError (primaryKeyAttribute m))
  end.

End Sequelize.

(* ===================================================================== *)
(** ** Express: routes and responses                                      *)
(* ===================================================================== *)

Module Express.

Inductive method := GET | POST | PUT | DELETE.

#[global] Instance method_eq_dec : EqDecision method.
Proof. solve_decision. Defined.

(** [req.params] (the [:id] segment, as the key the database reads from
    it) and [req.body] (the parsed JSON body). *)
Record request := mkRequest {
  params : gmap string Z;
  body : obj
}.

Record route := mkRoute {
  verb : method;
  path : string;
  handler : request -> Eff unit
}.

(** An application is the list of its routes, in registration order. *)
Definition application := list route.

(** [express()] *)
Definition express : application := [].

(** [app.METHOD(path, handler)] *)
Definition register (v : method) (p : string) (h : request -> Eff unit)
    (app : application) : application :=
  (app ++ [mkRoute v p h])%list.

Definition signature (app : application) : list (method * string) :=
  map (fun r => (verb r, path r)) app.

(** [res.json(x)]: status 200 unless set otherwise. *)
Definition res_json (x : payload) : Eff unit :=
  modify (responded (mkResponse 200 x)).

(** [res.status(code).send(text)] *)
Definition res_status_send (code : Z) (text : string) : Eff unit :=
  modify (responded (mkResponse code (Text text))).

(** [app.listen(port, callback)] *)
Definition listen (app : application) (port : Z) (callback : Eff unit) : Eff unit :=
  modify (bound port) ;; callback.

End Express.

(* ===================================================================== *)
(** ** index.js                                                           *)
(* ===================================================================== *)

Module Index.
Import Sequelize Express.

(** Modelled from the spec: [config/config.js] is required by index.js
    (line 3) and is not part of the sources at hand; its ["development"]
    entry is the static object holding the database host, credentials and
    dialect of a MySQL server, with the values of the README's listing of
    that file. *)
Definition config : Sequelize.config :=
  mkConfig "your_username" "your_password" "your_database" "127.0.0.1" "mysql".

(** [const app = express();] (line 5); no route is registered on it
    anywhere in the file. *)
Definition app : application := express.

(** [const sequelize = new Sequelize(config);] (line 9) *)
Definition sequelize : connection := mkSequelize config.

Section Script.

Variable pluralize : string -> string.

(** [const User = sequelize.define("user", {...}, {...});]
    (lines 17 to 42) *)
Definition User : model :=
  define pluralize sequelize "user"
    [ ("id",       mkAttribute INTEGER true  false true  true  None);
      ("username", mkAttribute STRING  false true  false false None);
      ("password", mkAttribute STRING  true  false false false None);
      ("age",      mkAttribute INTEGER true  false false false (Some (JNum 22))) ]
    (mkOptions false true).

(** Lines 10 to 13 *)
Definition authenticate_chain : Eff unit :=
  catch_
    (then_ (authenticate sequelize)
           (fun _ => console_log "Database Connected"))
    (fun err => console_log ("Database Connection Failed " ++ show_error err)).

(** Lines 52 to 54: [{alter:true}], so [force] is not set. *)
Definition sync_chain : Eff unit :=
  catch_
    (then_ (sync User (mkSync false true))
           (fun data => console_log "Model Created"))
    (fun err => console_log (show_error err)).

(** Lines 58 to 60 *)
Definition listen_call : Eff unit :=
  listen app 3000 (console_log "Server is running on port 3000").

(** The statements of the file that have an effect, in program order. *)
Definition main : list stmt :=
  [ Floating authenticate_chain;
    Floating sync_chain;
    Call listen_call ].

End Script.

End Index.

(* ===================================================================== *)
(** ** README.md, listing "App . js": the five route handlers             *)
(* ===================================================================== *)

Module Readme.
Import Sequelize Express.

Section Model.

Variable pluralize : string -> string.

(** The model of the listing "User . js": [sequelize.define("User", {...})]
    with no options object. *)
Definition User (s : connection) : model :=
  define pluralize s "User"
    [ ("username", mkAttribute STRING false false false false None);
      ("email",    mkAttribute STRING false true  false false None) ]
    default_options.

End Model.

Section Handlers.

(** The handlers name the model only as [User]. *)
Variable User : model.

Definition internal_error (label : string) (error : Node.error) : Eff unit :=
  console_error (label ++ " " ++ show_error error) ;;
  res_status_send 500 "Internal Server Error".

(** [app.post("/users", ...)]: the [try] block, then the handler. *)
Definition create_user_try (req : request) : Eff unit :=
  let values := pick ["username"; "email"] (body req) in
  let! user := create User values in
  res_json (Json user).

Definition create_user (req : request) : Eff unit :=
  try_catch (create_user_try req) (internal_error "Error creating user:").

(** [app.get("/users", ...)] *)
Definition get_users_try (req : request) : Eff unit :=
  let! users := findAll User in
  res_json (JsonList users).

Definition get_users (req : request) : Eff unit :=
  try_catch (get_users_try req) (internal_error "Error getting users:").

(** [app.get("/users/:id", ...)] *)
Definition get_user_try (req : request) : Eff unit :=
  let userId := params req !! "id" in
  let! user := findByPk User userId in
  match user with
  | None => res_status_send 404 "User not found"
  | Some user => res_json (Json user)
  end.

Definition get_user (req : request) : Eff unit :=
  try_catch (get_user_try req) (internal_error "Error getting user by ID:").

(** [app.put("/users/:id", ...)] *)
Definition update_user_try (req : request) : Eff unit :=
  let userId := params req !! "id" in
  let values := pick ["username"; "email"] (body req) in
  let! user := findByPk User userId in
  match user with
  | None => res_status_send 404 "User not found"
  | Some user =>
      let! user := update User user values in
      res_json (Json user)
  end.

Definition update_user (req : request) : Eff unit :=
  try_catch (update_user_try req) (internal_error "Error updating user by ID:").

(** [app.delete("/users/:id", ...)] *)
Definition delete_user_try (req : request) : Eff unit :=
  let userId := params req !! "id" in
  let! user := findByPk User userId in
  match user with
  | None => res_status_send 404 "User not found"
  | Some user =>
      destroy User user ;;
      res_json (Json {[ "message" := JStr "User deleted successfully" ]})
  end.

Definition delete_user (req : request) : Eff unit :=
  try_catch (delete_user_try req) (internal_error "Error deleting user by ID:").

(** The application after the five registrations, in the listing's order. *)
Definition app : application :=
  register DELETE "/users/:id" delete_user
    (register PUT "/users/:id" update_user
       (register GET "/users/:id" get_user
          (register GET "/users" get_users
             (register POST "/users" create_user express)))).

End Handlers.

Section Script.

Variable pluralize : string -> string.

(** [const sequelize = new Sequelize(config.development);], the same
    [config/config.js] as index.js reads. *)
Definition sequelize : connection := mkSequelize Index.config.

(** [User.create({ username: "john_doe", email: "john@example.com" })] *)
Definition john_doe : obj :=
  {[ "username" := JStr "john_doe"; "email" := JStr "john@example.com" ]}.

(** The sync of the listing: [{ force: true }], a [.then] and no
    [.catch]; inside the callback the sample user is created and the
    promise of [create] is dropped. *)
Definition sync_chain : Eff unit :=
  then_ (sync_all [User pluralize sequelize] (mkSync true false))
        (fun _ => console_log "Database synced" ;;
                  detach (create (User pluralize sequelize) john_doe)).

(** [app.listen(port, ...)] with [port = 3000]. *)
Definition listen_call : Eff unit :=
  listen (app (User pluralize sequelize)) 3000
    (console_log "Server is running on http://localhost:3000").

(** The statements of the listing that have an effect at startup, in
    program order ([app.use(express.json())] and the five registrations
    are in [app]; requests arrive with their body parsed). *)
Definition main : list stmt :=
  [ Floating sync_chain;
    Call listen_call ].

End Script.

End Readme.

(* ===================================================================== *)
(** ** README.md, listing "Getter & Setter": the virtual [fullName]       *)
(* ===================================================================== *)

Module FullName.

(** [s.split(sep)] for a separator of one character: the pieces between
    the separators, empty pieces included; never an empty array. *)
Fixpoint split (sep : ascii) (s : string) : list string :=
  match s with
  | EmptyString => [EmptyString]
  | String c rest =>
      if Ascii.eqb c sep then EmptyString :: split sep rest
      else match split sep rest with
           | piece :: pieces => String c piece :: pieces
           | [] => [String c EmptyString]
           end
  end.

(** [this.setDataValue(key, v)]; [v] may be undefined. *)
Definition setDataValue (key : string) (v : option value) (this : obj) : obj :=
  match v with
  | Some x => <[key := x]> this
  | None => delete key this
  end.

Section Accessors.

(** How a template literal renders a number and a date. *)
Variables (number_string date_string : Z -> string).

(** [`${v}`] *)
Definition render (v : option value) : string :=
  match v with
  | None => "undefined"
  | Some JNull => "null"
  | Some (JStr s) => s
  | Some (JNum n) => number_string n
  | Some (JDate t) => date_string t
  end.

(** [get() { return `${this.firstName} ${this.lastName}`; }] *)
Definition get_fullName (this : obj) : string :=
  render (this !! "firstName") ++ " " ++ render (this !! "lastName").

End Accessors.

(** [set(value) { const parts = value.split(' ');
      this.setDataValue('firstName', parts[0]);
      this.setDataValue('lastName', parts[1]); }] *)
Definition set_fullName (value : string) (this : obj) : obj :=
  let parts := split " "%char value in
  setDataValue "lastName" (JStr <$> parts !! 1%nat)
    (setDataValue "firstName" (JStr <$> parts !! 0%nat) this).

End FullName.

Import Sequelize Express.

(* ===================================================================== *)
(** ** Vocabulary of the statements                                       *)
(* ===================================================================== *)



(** A computation is quiet when it neither answers the request nor
    writes to the console. *)
Definition quiet {A} (m : Eff A) : Prop :=
  ∀ w, responses (m w).2 = responses w ∧ console (m w).2 = console w.

(** Is the payload a JSON document (what [res.json] sends)? *)
Definition is_json (p : payload) : bool :=
  match p with
  | Json _ | JsonList _ => true
  | Text _ => false
  end.

(** What a [try] block sends when it runs to its end: a JSON document
    with status 200, or the 404 of an absent row. *)
Definition served (r : response) : Prop :=
  (status r = 200 ∧ is_json (content r) = true) ∨
  r = mkResponse 404 (Text "User not found").

(** A [try] block answers when it sends exactly one such response on the
    way to its end and none on the way to an exception, and logs nothing
    either way. *)
Definition answers (m : Eff unit) : Prop :=
  ∀ w, match m w with
       | (Ok _, w1) =>
           (∃ r, responses w1 = (responses w ++ [r])%list ∧ served r) ∧
           console w1 = console w
       | (Throw _, w1) => responses w1 = responses w ∧ console w1 = console w
       end.

(** A handler [h] guards the [try] block [attempt] under [label]: where
    the block runs to its end the handler is the block; where the block
    throws, the handler logs one line under [label], answers 500 with
    "Internal Server Error", and returns. *)
Definition guarded_by (attempt : request -> Eff unit) (label : string)
    (h : request -> Eff unit) : Prop :=
  ∀ req w,
    match attempt req w with
    | (Ok _, w1) =>
        h req w = (Ok tt, w1) ∧
        (∃ a, responses w1 = (responses w ++ [a])%list ∧ served a) ∧
        console w1 = console w
    | (Throw e, w1) =>
        h req w =
          (Ok tt, responded (mkResponse 500 (Text "Internal Server Error"))
                    (logged (label ++ " " ++ show_error e) w1)) ∧
        responses w1 = responses w ∧ console w1 = console w
    end.

(** The [try] block and the label of each route of the README's
    application, in registration order. *)
Definition attempts (User : model) : list (string * (request -> Eff unit)) :=
  [ ("Error creating user:",       Readme.create_user_try User);
    ("Error getting users:",       Readme.get_users_try User);
    ("Error getting user by ID:",  Readme.get_user_try User);
    ("Error updating user by ID:", Readme.update_user_try User);
    ("Error deleting user by ID:", Readme.delete_user_try User) ].

(** Every handler returns, having sent one response: 200 or 404 with
    nothing logged, or 500 with one line logged. *)
Definition settles (h : request -> Eff unit) : Prop :=
  ∀ req w, ∃ w' a,
    h req w = (Ok tt, w') ∧
    responses w' = (responses w ++ [a])%list ∧
    ((status a = 200 ∧ console w' = console w) ∨
     (status a = 404 ∧ console w' = console w) ∨
     (status a = 500 ∧ ∃ line, console w' = (console w ++ [line])%list)).

(** What a handler's [catch] block leaves behind. *)
Definition fail500 (label : string) (e : error) (w : world) : result unit * world :=
  (Ok tt, responded (mkResponse 500 (Text "Internal Server Error"))
            (logged (label ++ " " ++ show_error e) w)).

(** A request is rejected when it is answered 500 and the rows of the
    table are as they were. *)
Definition rejected (w w' : world) : Prop :=
  responses w' = (responses w ++ [mkResponse 500 (Text "Internal Server Error")])%list ∧
  table w' = table w.

(** *** What a request can do to the table

    One request takes the table from [w] to [w']: it leaves the rows
    alone (the counter may move on), or inserts the row [Model.create]
    built, or saves the row [instance.update] changed, or deletes the row
    [instance.destroy] was called on; each with the checks the library
    made on the way. *)

Inductive db_step (m : model) (w w' : world) : Prop :=
| step_same :
    table w' = table w →
    next_id w <= next_id w' →
    db_step m w w'
| step_insert (values : obj) (k : Z) :
    notNull_violation m (stamp_created m (now w) (build m values)) = None →
    unique_violation m (table w) None (stamp_created m (now w) (build m values)) = None →
    k = match stamp_created m (now w) (build m values) !! primaryKeyAttribute m with
        | Some (JNum k) => k
        | _ => next_id w
        end →
    table w !! k = None →
    table w' =
      <[k := complete m (<[primaryKeyAttribute m := JNum k]>
                           (stamp_created m (now w) (build m values)))]> (table w) →
    next_id w' = Z.max (next_id w) (k + 1) →
    db_step m w w'
| step_update (j k : Z) (inst values : obj) :
    table w !! j = Some inst →
    inst !! primaryKeyAttribute m = Some (JNum k) →
    notNull_violation_in m (changes_of m values) = None →
    unique_violation m (table w) (Some k) (changes_of m values) = None →
    table w' =
      match table w !! k with
      | Some _ => <[k := stamp_updated m (now w) (changes_of m values ∪ inst)]> (table w)
      | None => table w
      end →
    next_id w' = next_id w →
    db_step m w w'
| step_delete (j k : Z) (inst : obj) :
    table w !! j = Some inst →
    inst !! primaryKeyAttribute m = Some (JNum k) →
    table w' = delete k (table w) →
    next_id w' = next_id w →
    db_step m w w'.

(** *** Invariants of the table

    Every row carries its key in the primary-key column; the counter is
    above every key; no two rows share a non-null value of a column;
    every row has exactly the given attributes. *)

Definition keyed (pk : string) (tbl : gmap Z obj) : Prop :=
  ∀ k row, tbl !! k = Some row → row !! pk = Some (JNum k).
Definition fresh (tbl : gmap Z obj) (counter : Z) : Prop :=
  ∀ k row, tbl !! k = Some row → k < counter.
Definition unique_on (n : string) (tbl : gmap Z obj) : Prop :=
  ∀ i j ri rj v,
    tbl !! i = Some ri → tbl !! j = Some rj →
    ri !! n = Some v → rj !! n = Some v → v ≠ JNull → i = j.
Definition shaped (cols : gset string) (tbl : gmap Z obj) : Prop :=
  ∀ k row, tbl !! k = Some row → dom row = cols.

(** A table is sound for the column [n] when its rows are keyed by
    [id], the counter is above every key and no value of [n] is there
    twice. *)
Definition sound (n : string) (w : world) : Prop :=
  keyed "id" (table w) ∧ fresh (table w) (next_id w) ∧ unique_on n (table w).

(** The table of index.js is consistent when it is sound for
    [username]; the table of the README's application is coherent when
    it is sound for [email]. *)
Definition consistent (w : world) : Prop := sound "username" w.

(** *** The rows of the user model of index.js *)

Definition user_row (k : Z) (username : value) : obj :=
  {[ "id" := JNum k; "username" := username; "password" := JNull; "age" := JNum 22 ]}.

Definition user_columns : gset string := {[ "id"; "username"; "password"; "age" ]}.

(** *** The rows of the user model of the README *)

(** A user of the README's model: key, name, email, the time it was
    created and the time it was last saved. *)
Definition readme_row (k : Z) (username email : value) (created updated : Z) : obj :=
  {[ "id" := JNum k; "username" := username; "email" := email;
     "createdAt" := JDate created; "updatedAt" := JDate updated ]}.

(** The model of the README's application, on its connection. *)
Definition readme_user (pluralize : string -> string) : model :=
  Readme.User pluralize Readme.sequelize.

(** The sample user of the README's startup, as stored at time [t]. *)
Definition john_row (t : Z) : obj :=
  {[ "id" := JNum 1; "username" := JStr "john_doe";
     "email" := JStr "john@example.com";
     "createdAt" := JDate t; "updatedAt" := JDate t ]}.

(** A string without a space. *)
Fixpoint spaceless (s : string) : bool :=
  match s with
  | EmptyString => true
  | String c rest => negb (Ascii.eqb c " "%char) && spaceless rest
  end.

(** *** Sample inputs *)

(** A database holding one user, alice, reachable at every round-trip. *)
Definition sample : world :=
  boot {[ 1 := user_row 1 (JStr "alice") ]} 2 0 (fun _ => true).

(** [POST /users] with [{ "username": "carol", "password": "pw", "age": 30 }] *)
Definition post_carol : request :=
  mkRequest ∅ {[ "username" := JStr "carol"; "password" := JStr "pw"; "age" := JNum 30 ]}.

(** [GET /users/1] and [DELETE /users/1] *)
Definition about_1 : request := mkRequest {[ "id" := 1 ]} ∅.

(** [DELETE /users/7], an id no row has. *)
Definition about_7 : request := mkRequest {[ "id" := 7 ]} ∅.

(** [POST /users] with [{ "username": "carol" }] *)
Definition post_carol_bare : request :=
  mkRequest ∅ {[ "username" := JStr "carol" ]}.

(** The database of the README's application with two users, alice and
    dave, created at time 3; the clock reads 5 and the server is
    reachable at every round-trip. *)
Definition library : world :=
  boot {[ 1 := readme_row 1 (JStr "alice") (JStr "alice@example.com") 3 3;
          2 := readme_row 2 (JStr "dave") (JStr "dave@example.com") 3 3 ]}
       3 5 (fun _ => true).

(** [PUT /users/1] with
    [{ "username": "bob", "email": "bob@example.com", "age": 30 }] *)
Definition put_bob : request :=
  mkRequest {[ "id" := 1 ]}
    {[ "username" := JStr "bob"; "email" := JStr "bob@example.com"; "age" := JNum 30 ]}.


(** [POST /users] with
    [{ "username": "erin", "email": "erin@example.com" }] *)
Definition post_erin : request :=
  mkRequest ∅ {[ "username" := JStr "erin"; "email" := JStr "erin@example.com" ]}.

(* ===================================================================== *)
(** ** Startup of index.js                                               *)
(* ===================================================================== *)

(** Unfolds the plumbing of [Eff] one layer at a time. *)
Ltac step_eff :=
  repeat (progress (cbn;
    unfold catch_, then_, try_catch, bind, authenticate, sync, roundtrip,
      console_log, console_error, modify, get, ret, throw)).

Section Startup.

Variable pluralize : string -> string.
Variables (db : gmap Z obj) (counter clock : Z) (net : nat -> bool).

Let final : world := run (Index.main pluralize) (boot db counter clock net).

(** The whole run of index.js, by the fate of its three possible
    round-trips: the test query, the inspection of the sync, its CREATE
    or ALTER. *)
Lemma index_run :
  final =
  mkWorld
    (if net 1%nat && net 2%nat then alter_rows (Index.User pluralize) db else db)
    counter clock net
    (if net 1%nat then 3 else 2)
    ([("mysql", SelectOne); ("mysql", ShowTable "user")]
     ++ (if net 1%nat
         then [("mysql", CreateOrAlterTable "user" ["id"; "username"; "password"; "age"])]
         else []))%list
    ["Server is running on port 3000";
     if net 0%nat then "Database Connected"
     else "Database Connection Failed SequelizeConnectionError";
     if net 1%nat && net 2%nat then "Model Created"
     else "SequelizeConnectionError"]
    [] [3000] None.
Proof.
  unfold final, run, Index.main; cbn.
  unfold Index.authenticate_chain, Index.sync_chain, Index.listen_call, listen.
  step_eff.
  destruct (net 0%nat); step_eff; destruct (net 1%nat); step_eff;
    try reflexivity; destruct (net 2%nat); step_eff; reflexivity.
Qed.

End Startup.

(** *** What altering does to a row *)


Lemma conform_fill_dom (fill : string * attribute -> value)
    (l : list (string * attribute)) (base : obj) :
  dom (foldr (fun na r =>
                match r !! na.1 with
                | Some _ => r
                | None => <[na.1 := fill na]> r
                end) base l)
  = dom base ∪ list_to_set (map fst l).
Proof.
  induction l as [|[n' a] l IH]; cbn [foldr fst snd map list_to_set].
  - set_solver.
  - destruct (foldr _ base l !! n') eqn:Hn'.
    + rewrite IH. apply (elem_of_dom_2 (D:=gset string)) in Hn'. rewrite IH in Hn'.
      set_solver.
    + rewrite dom_insert_L, IH. set_solver.
Qed.


Lemma dom_conform m k (row : obj) :
  dom (conform m k row) = list_to_set (column_names m).
Proof.
  unfold conform.
  rewrite (conform_fill_dom (fun na => if primaryKey na.2 then JNum k else filler na.2)).
  fold (column_names m).
  assert (dom (filter (fun nv : string * value => nv.1 ∈ column_names m) row)
          ⊆ (list_to_set (column_names m) : gset string)) as Hsub.
  { intros n [v Hv]%elem_of_dom. apply map_lookup_filter_Some in Hv as [_ Hin].
    apply elem_of_list_to_set. exact Hin. }
  set_solver.
Qed.

Lemma lookup_alter_rows m (tbl : gmap Z obj) k :
  alter_rows m tbl !! k = conform m k <$> tbl !! k.
Proof.
  unfold alter_rows. rewrite map_lookup_imap. destruct (tbl !! k); reflexivity.
Qed.




(** C10: index.js listens on port 3000 whatever the test query and the
    sync do: a failure of either is a line on the console and nothing
    more, and the process does not exit. *)
Theorem server_listens_whatever_the_database_does
    (pluralize : string -> string)
    (db : gmap Z obj) (counter clock : Z) (net : nat -> bool) :
  let w := run (Index.main pluralize) (boot db counter clock net) in
  listening w = [3000] ∧
  exited w = None ∧
  console w =
    ["Server is running on port 3000";
     if net 0%nat then "Database Connected"
     else "Database Connection Failed SequelizeConnectionError";
     if net 1%nat && net 2%nat then "Model Created"
     else "SequelizeConnectionError"].
Proof.
  intros w. subst w. rewrite index_run. cbn. repeat split; reflexivity.
Qed.

(* ===================================================================== *)
(** ** What the library calls leave alone                                *)
(* ===================================================================== *)

Create HintDb quiet.

Lemma quiet_ret {A} (a : A) : quiet (ret a).
Proof. intros w; split; reflexivity. Qed.

Lemma quiet_throw {A} (e : error) : quiet (@throw A e).
Proof. intros w; split; reflexivity. Qed.

Lemma quiet_get : quiet get.
Proof. intros w; split; reflexivity. Qed.

Lemma quiet_bind {A B} (m : Eff A) (k : A -> Eff B) :
  quiet m → (∀ a, quiet (k a)) → quiet (bind m k).
Proof.
  intros Hm Hk w. unfold bind. specialize (Hm w).
  destruct (m w) as [[a|e] w1]; cbn in *.
  - destruct (Hk a w1) as [H1 H2]. rewrite H1, H2. exact Hm.
  - exact Hm.
Qed.

Lemma quiet_roundtrip d q : quiet (roundtrip d q).
Proof. intros w. unfold roundtrip. destruct (up w (tick w)); split; reflexivity. Qed.

Lemma quiet_set_table f : quiet (modify (set_table f)).
Proof. intros w; split; reflexivity. Qed.

Lemma quiet_set_next_id n : quiet (modify (set_next_id n)).
Proof. intros w; split; reflexivity. Qed.

#[global] Hint Resolve quiet_ret quiet_throw quiet_get quiet_roundtrip
  quiet_set_table quiet_set_next_id : quiet.

Ltac quiet_steps :=
  repeat first
    [ progress intros
    | apply quiet_bind
    | solve [auto with quiet]
    | match goal with
      | |- quiet (match ?x with _ => _ end) => destruct x
      | |- quiet (if ?x then _ else _) => destruct x
      end ].

Lemma quiet_create m values : quiet (create m values).
Proof. unfold create. quiet_steps. Qed.

Lemma quiet_findAll m : quiet (findAll m).
Proof. unfold findAll. quiet_steps. Qed.

Lemma quiet_findByPk m param : quiet (findByPk m param).
Proof. unfold findByPk. quiet_steps. Qed.

Lemma quiet_update m inst values : quiet (update m inst values).
Proof. unfold update. quiet_steps. Qed.

Lemma quiet_destroy m inst : quiet (destroy m inst).
Proof. unfold destroy. quiet_steps. Qed.

#[global] Hint Resolve quiet_create quiet_findAll quiet_findByPk
  quiet_update quiet_destroy : quiet.

(* ===================================================================== *)
(** ** The shape of a handler's answer                                   *)
(* ===================================================================== *)

Lemma answers_res_json p : is_json p = true → answers (res_json p).
Proof.
  intros Hp w. cbn. split; [|reflexivity].
  eexists; split; [reflexivity|]. left. split; [reflexivity|exact Hp].
Qed.

Lemma answers_not_found : answers (res_status_send 404 "User not found").
Proof.
  intros w. cbn. split; [|reflexivity].
  eexists; split; [reflexivity|]. right. reflexivity.
Qed.

Lemma answers_bind {A} (m : Eff A) (k : A -> Eff unit) :
  quiet m → (∀ a, answers (k a)) → answers (bind m k).
Proof.
  intros Hm Hk w. unfold bind. destruct (Hm w) as [Hr Hc].
  destruct (m w) as [[a|e] w1]; cbn in *.
  - specialize (Hk a w1). destruct (k a w1) as [[u|e] w2].
    + rewrite <- Hr, <- Hc. exact Hk.
    + rewrite <- Hr, <- Hc. exact Hk.
  - split; assumption.
Qed.

Lemma try_catch_guards attempt label :
  (∀ req, answers (attempt req)) →
  guarded_by attempt label
    (fun req => try_catch (attempt req) (Readme.internal_error label)).
Proof.
  intros Ha req w. specialize (Ha req w). unfold try_catch.
  destruct (attempt req w) as [[u|e] w1]; [destruct u|].
  - destruct Ha as [Hr Hc]. repeat split; assumption.
  - destruct Ha as [Hr Hc]. repeat split; assumption.
Qed.

Section Handlers_answer.

Variable User : model.

Lemma create_user_try_answers req : answers (Readme.create_user_try User req).
Proof.
  unfold Readme.create_user_try. apply answers_bind; [auto with quiet|].
  intros u. apply answers_res_json. reflexivity.
Qed.

Lemma get_users_try_answers req : answers (Readme.get_users_try User req).
Proof.
  unfold Readme.get_users_try. apply answers_bind; [auto with quiet|].
  intros u. apply answers_res_json. reflexivity.
Qed.

Lemma get_user_try_answers req : answers (Readme.get_user_try User req).
Proof.
  unfold Readme.get_user_try. apply answers_bind; [auto with quiet|].
  intros [u|]; [apply answers_res_json; reflexivity | apply answers_not_found].
Qed.

Lemma update_user_try_answers req : answers (Readme.update_user_try User req).
Proof.
  unfold Readme.update_user_try. apply answers_bind; [auto with quiet|].
  intros [u|]; [|apply answers_not_found].
  apply answers_bind; [auto with quiet|].
  intros u'. apply answers_res_json. reflexivity.
Qed.

Lemma delete_user_try_answers req : answers (Readme.delete_user_try User req).
Proof.
  unfold Readme.delete_user_try. apply answers_bind; [auto with quiet|].
  intros [u|]; [|apply answers_not_found].
  apply answers_bind; [auto with quiet|].
  intros _. apply answers_res_json. reflexivity.
Qed.

Lemma app_guarded :
  Forall2 (fun r la => guarded_by la.2 la.1 (handler r))
          (Readme.app User) (attempts User).
Proof.
  unfold Readme.app, attempts, register, express; cbn.
  repeat constructor; cbn.
  - apply (try_catch_guards (Readme.create_user_try User)), create_user_try_answers.
  - apply (try_catch_guards (Readme.get_users_try User)), get_users_try_answers.
  - apply (try_catch_guards (Readme.get_user_try User)), get_user_try_answers.
  - apply (try_catch_guards (Readme.update_user_try User)), update_user_try_answers.
  - apply (try_catch_guards (Readme.delete_user_try User)), delete_user_try_answers.
Qed.

Lemma guarded_settles attempt label h : guarded_by attempt label h → settles h.
Proof.
  intros Hg req w. specialize (Hg req w).
  destruct (attempt req w) as [[u|e] w1]; [destruct u|].
  - destruct Hg as (Hh & (a & Hr & Hs) & Hc).
    exists w1, a. repeat split; try assumption.
    destruct Hs as [[Hs _] | Hs]; [left | right; left; rewrite Hs]; split; auto.
  - destruct Hg as (Hh & Hr & Hc).
    eexists _, _. split; [exact Hh|]. cbn. rewrite Hr, Hc.
    split; [reflexivity|]. right; right. split; [reflexivity|].
    eexists; reflexivity.
Qed.

Lemma app_settles : Forall (fun r => settles (handler r)) (Readme.app User).
Proof.
  pose proof app_guarded as H.
  induction H as [|r la rs las Hg _ IH]; constructor; [|exact IH].
  eapply guarded_settles, Hg.
Qed.

End Handlers_answer.

(** C1, as the sources have it: the application of the README's listing
    has the five routes, in this order; each handler is a [try] block
    around a call into Sequelize whose result it sends as JSON (or the
    404 of an absent row), and whichever error the block throws becomes
    a logged line and a 500. The application of index.js has no route. *)
Theorem readme_app_has_five_guarded_routes (User : model) :
  signature Index.app = [] ∧
  signature (Readme.app User) =
    [ (POST, "/users"); (GET, "/users"); (GET, "/users/:id");
      (PUT, "/users/:id"); (DELETE, "/users/:id") ] ∧
  Forall2 (fun r la => guarded_by la.2 la.1 (handler r))
          (Readme.app User) (attempts User).
Proof.
  split; [reflexivity|]. split; [reflexivity|]. apply app_guarded.
Qed.

(** C1, as stated, on index.js: its application does not have the five
    routes; it has none. *)
Lemma index_app_has_no_route :
  signature Index.app = [] ∧
  signature Index.app ≠
    [ (POST, "/users"); (GET, "/users"); (GET, "/users/:id");
      (PUT, "/users/:id"); (DELETE, "/users/:id") ].
Proof. split; [reflexivity | discriminate]. Qed.

(** C6, as the sources have it: a failure of the test query or of the
    sync at startup is caught by the [.catch] of its promise chain and
    logged, without any HTTP response and without ending the process; a
    failure inside a route handler of the README's listing is caught by
    the handler, which always returns having sent exactly one response:
    200 or 404 with nothing logged, or 500 with one line logged. *)
Theorem failures_are_caught_and_logged
    (pluralize : string -> string)
    (db : gmap Z obj) (counter clock : Z) (net : nat -> bool) (User : model) :
  (let w := run (Index.main pluralize) (boot db counter clock net) in
   exited w = None ∧
   responses w = [] ∧
   console w =
     ["Server is running on port 3000";
      if net 0%nat then "Database Connected"
      else "Database Connection Failed SequelizeConnectionError";
      if net 1%nat && net 2%nat then "Model Created"
      else "SequelizeConnectionError"]) ∧
  Forall (fun r => settles (handler r)) (Readme.app User).
Proof.
  split; [|apply app_settles].
  intros w. subst w. rewrite index_run. cbn. repeat split; reflexivity.
Qed.

(** C6, as stated, at a startup with the database unreachable: the test
    query throws, and the run of index.js ends with the failure logged
    and no response of any status sent, so the failure became neither a
    404 nor a 500. *)
Lemma startup_failure_has_no_http_status :
  let w := boot ∅ 1 0 (fun _ => false) in
  let w' := run (Index.main (fun s => s)) w in
  (authenticate Index.sequelize w).1 = Throw ConnectionError ∧
  In "Database Connection Failed SequelizeConnectionError" (console w') ∧
  ¬ (∃ a, In a (responses w') ∧ (status a = 404 ∨ status a = 500)).
Proof.
  cbn zeta. rewrite index_run. cbn. split; [reflexivity|]. split; [auto|].
  intros (a & [] & _).
Qed.

(* ===================================================================== *)
(** ** The queries, one round-trip at a time                             *)
(* ===================================================================== *)

Lemma lookup_pick ks (o : obj) k :
  pick ks o !! k = if bool_decide (k ∈ ks) then o !! k else None.
Proof.
  induction ks as [|k' ks IH]; cbn [pick].
  - rewrite lookup_empty. rewrite bool_decide_eq_false_2; [done|]. apply not_elem_of_nil.
  - destruct (decide (k = k')) as [->|Hne].
    + rewrite bool_decide_eq_true_2 by apply list_elem_of_here.
      destruct (o !! k') eqn:E.
      * by rewrite lookup_insert_eq.
      * rewrite IH. by destruct (bool_decide _).
    + assert (bool_decide (k ∈ k' :: ks) = bool_decide (k ∈ ks)) as ->.
      { apply bool_decide_ext. rewrite elem_of_cons. split; [intros [?|?]; done | by right]. }
      destruct (o !! k'); [rewrite lookup_insert_ne by done|]; exact IH.
Qed.

(** [build] reads each attribute's value, else its default. *)
Lemma lookup_build m (values : obj) n :
  NoDup (column_names m) →
  build m values !! n =
  match attribute_of m n with
  | Some a => match values !! n with
              | Some v => Some v
              | None => defaultValue a
              end
  | None => None
  end.
Proof.
  unfold build, attribute_of, column_names.
  induction (rawAttributes m) as [|[n' a] l IH]; intros Hnd; cbn.
  - apply lookup_empty.
  - inversion Hnd as [|? ? Hnotin Hnd']; subst.
    specialize (IH Hnd'). case_bool_decide as Hn; cbn.
    + subst n'.
      assert (find (λ na : string * attribute, bool_decide (na.1 = n)) l = None) as Hf.
      { destruct (find _ l) as [[n2 a2]|] eqn:Hf; [|done].
        apply find_some in Hf as [Hin Heq]. apply bool_decide_eq_true in Heq.
        cbn in Heq. subst n2. exfalso. apply Hnotin.
        apply (in_map fst) in Hin. apply list_elem_of_In. exact Hin. }
      rewrite Hf in IH. cbn in IH.
      destruct (values !! n) eqn:Hv.
      * by rewrite lookup_insert_eq.
      * destruct (defaultValue a); [by rewrite lookup_insert_eq|exact IH].
    + destruct (values !! n'); [by rewrite lookup_insert_ne|].
      destruct (defaultValue a); [by rewrite lookup_insert_ne|done].
Qed.

Lemma lookup_complete m (row : obj) n :
  complete m row !! n =
  match row !! n with
  | Some v => Some v
  | None => if bool_decide (n ∈ column_names m) then Some JNull else None
  end.
Proof.
  unfold complete, column_names.
  induction (rawAttributes m) as [|[n' a] l IH]; cbn.
  - destruct (row !! n); [done|]. by rewrite bool_decide_eq_false_2 by apply not_elem_of_nil.
  - destruct (foldr _ row l !! n') eqn:Hn'.
    + rewrite IH. destruct (row !! n) eqn:Hr; [done|].
      destruct (decide (n = n')) as [->|Hne].
      * rewrite IH in Hn'. rewrite (bool_decide_eq_true_2 (n' ∈ n' :: _)) by apply list_elem_of_here.
        by destruct (bool_decide _).
      * rewrite (bool_decide_ext (n ∈ n' :: map fst l) (n ∈ map fst l)); [done|].
        rewrite elem_of_cons. split; [intros [?|?]; done | by right].
    + destruct (decide (n = n')) as [->|Hne].
      * rewrite lookup_insert_eq. rewrite IH in Hn'.
        destruct (row !! n'); [done|].
        by rewrite bool_decide_eq_true_2 by apply list_elem_of_here.
      * rewrite lookup_insert_ne by done. rewrite IH.
        destruct (row !! n); [done|].
        rewrite (bool_decide_ext (n ∈ n' :: map fst l) (n ∈ map fst l)); [done|].
        rewrite elem_of_cons. split; [intros [?|?]; done | by right].
Qed.

Lemma create_run m values w :
  create m values w =
  let row := stamp_created m (now w) (build m values) in
  let pk := primaryKeyAttribute m in
  let w1 := sent (dialect_of m) (Insert (tableName m)) w in
  match notNull_violation m row with
  | Some a => (Throw (ValidationError a), w)
  | None =>
      if up w (tick w) then
        match unique_violation m (table w) None row with
        | Some a =>
            (Throw (UniqueConstraintError a),
             if generated m row then set_next_id (next_id w + 1) w1 else w1)
        | None =>
            let k := match row !! pk with
                     | Some (JNum k) => k
                     | _ => next_id w
                     end in
            match table w !! k with
            | Some _ => (Throw (UniqueConstraintError pk), w1)
            | None =>
                let instance := <[pk := JNum k]> row in
                (Ok instance,
                 set_next_id (Z.max (next_id w) (k + 1))
                   (set_table (insert k (complete m instance)) w1))
            end
        end
      else (Throw ConnectionError, w1)
  end.
Proof.
  unfold create. step_eff.
  destruct (notNull_violation _ _); [reflexivity|]. step_eff.
  destruct (up w (tick w)); [|reflexivity]. step_eff.
  destruct (unique_violation _ _ _ _).
  - destruct (generated _ _); reflexivity.
  - match goal with |- context [table w !! ?k] => destruct (table w !! k) end;
      reflexivity.
Qed.

Lemma update_run m inst values w :
  update m inst values w =
  let pk := primaryKeyAttribute m in
  let changes := changes_of m values in
  let row := stamp_updated m (now w) (changes ∪ inst) in
  match notNull_violation_in m changes with
  | Some a => (Throw (ValidationError a), w)
  | None =>
      if bool_decide (changes = ∅) then (Ok inst, w)
      else if bool_decide (changes ∪ inst = inst) then (Ok row, w)
      else
        match inst !! pk with
        | Some (JNum k) =>
            let w1 := sent (dialect_of m) (Update (tableName m) k) w in
            if up w (tick w) then
              match unique_violation m (table w) (Some k) changes with
              | Some a => (Throw (UniqueConstraintError a), w1)
              | None =>
                  (Ok row,
                   set_table (fun tbl => match tbl !! k with
                                         | Some _ => <[k := row]> tbl
                                         | None => tbl
                                         end) w1)
              end
            else (Throw ConnectionError, w1)
        | _ => (Throw (ValidationError pk), w)
        end
  end.
Proof.
  unfold update. step_eff.
  destruct (notNull_violation_in _ _); [reflexivity|].
  destruct (bool_decide (changes_of m values = ∅)); [reflexivity|].
  destruct (bool_decide (changes_of m values ∪ inst = inst)); [reflexivity|].
  destruct (inst !! primaryKeyAttribute m) as [[| k | |]|]; try reflexivity.
  step_eff. destruct (up w (tick w)); [|reflexivity]. step_eff.
  destruct (unique_violation _ _ _ _); reflexivity.
Qed.

Lemma findByPk_run m k w :
  findByPk m (Some k) w =
  if up w (tick w)
  then (Ok (table w !! k), sent (dialect_of m) (SelectByPk (tableName m) k) w)
  else (Throw ConnectionError, sent (dialect_of m) (SelectByPk (tableName m) k) w).
Proof.
  unfold findByPk. step_eff. destruct (up w (tick w)); reflexivity.
Qed.

Lemma destroy_run m inst w :
  destroy m inst w =
  match inst !! primaryKeyAttribute m with
  | Some (JNum k) =>
      if up w (tick w)
      then (Ok tt, set_table (delete k) (sent (dialect_of m) (Delete (tableName m) k) w))
      else (Throw ConnectionError, sent (dialect_of m) (Delete (tableName m) k) w)
  | _ => (Throw (ValidationError (primaryKeyAttribute m)), w)
  end.
Proof.
  unfold destroy.
  destruct (inst !! primaryKeyAttribute m) as [[| k | |]|]; try reflexivity.
  step_eff. destruct (up w (tick w)); reflexivity.
Qed.


(* ===================================================================== *)
(** ** What a call does to the table                                      *)
(* ===================================================================== *)

Ltac same_db := apply step_same; [reflexivity | cbn; lia].


Lemma create_steps m values w : db_step m w (create m values w).2.
Proof.
  rewrite create_run. cbn zeta.
  destruct (notNull_violation _ _) eqn:Hnn; [same_db|].
  destruct (up w (tick w)); [|same_db].
  destruct (unique_violation _ _ _ _) eqn:Hu.
  { destruct (generated _ _); same_db. }
  match goal with |- context [table w !! ?k] => destruct (table w !! k) eqn:Hk end;
    [same_db|].
  eapply step_insert; [exact Hnn|exact Hu|reflexivity|exact Hk|reflexivity|reflexivity].
Qed.

Lemma findAll_steps m w : db_step m w (findAll m w).2.
Proof.
  unfold findAll, bind, roundtrip. destruct (up w (tick w)); same_db.
Qed.

Lemma findByPk_steps m param w : db_step m w (findByPk m param w).2.
Proof.
  destruct param as [k|]; [|same_db].
  rewrite findByPk_run. destruct (up w (tick w)); same_db.
Qed.

Lemma update_steps m inst values w j :
  table w !! j = Some inst → db_step m w (update m inst values w).2.
Proof.
  intros Hj. rewrite update_run. cbn zeta.
  destruct (notNull_violation_in _ _) eqn:Hnn; [same_db|].
  destruct (bool_decide (changes_of m values = ∅)); [same_db|].
  destruct (bool_decide (changes_of m values ∪ inst = inst)); [same_db|].
  destruct (inst !! primaryKeyAttribute m) as [[| k | |]|] eqn:Hpk; try same_db.
  destruct (up w (tick w)); [|same_db].
  destruct (unique_violation _ _ _ _) eqn:Hu; [same_db|].
  eapply (step_update _ _ _ j k inst); [exact Hj|exact Hpk|exact Hnn|exact Hu| |reflexivity].
  reflexivity.
Qed.

Lemma destroy_steps m inst w j :
  table w !! j = Some inst → db_step m w (destroy m inst w).2.
Proof.
  intros Hj. rewrite destroy_run.
  destruct (inst !! primaryKeyAttribute m) as [[| k | |]|] eqn:Hpk; try same_db.
  destruct (up w (tick w)); [|same_db].
  eapply (step_delete _ _ _ j k inst); [exact Hj|exact Hpk|reflexivity|reflexivity].
Qed.

Section Steps.
Variable User : model.







End Steps.

Lemma taken_true tbl self n v :
  taken tbl self n v = true ↔
  ∃ k row, tbl !! k = Some row ∧ Some k ≠ self ∧ row !! n = Some v.
Proof. unfold taken. rewrite bool_decide_eq_true. reflexivity. Qed.

Lemma taken_false tbl self n v :
  taken tbl self n v = false ↔
  ∀ k row, tbl !! k = Some row → Some k ≠ self → row !! n ≠ Some v.
Proof.
  unfold taken. rewrite bool_decide_eq_false. split.
  - intros Hno k row Hk Hs Hv. apply Hno. exists k, row. auto.
  - intros Hall (k & row & Hk & Hs & Hv). exact (Hall k row Hk Hs Hv).
Qed.

Section IndexUser.
Variable pluralize : string -> string.
Local Abbreviation U := (Index.User pluralize).

Lemma User_attributes :
  rawAttributes U =
    [ ("id",       mkAttribute INTEGER true  false true  true  None);
      ("username", mkAttribute STRING  false true  false false None);
      ("password", mkAttribute STRING  true  false false false None);
      ("age",      mkAttribute INTEGER true  false false false (Some (JNum 22))) ].
Proof. reflexivity. Qed.

Lemma User_columns : column_names U = ["id"; "username"; "password"; "age"].
Proof. reflexivity. Qed.

Lemma User_pk : primaryKeyAttribute U = "id".
Proof. reflexivity. Qed.

Lemma User_stamp_created t row : stamp_created U t row = row.
Proof. reflexivity. Qed.

Lemma User_stamp_updated t row : stamp_updated U t row = row.
Proof. reflexivity. Qed.

Lemma User_notNull row :
  notNull_violation U row =
  if is_null (row !! "username") then Some "username" else None.
Proof.
  unfold notNull_violation. rewrite User_attributes.
  cbn [find fst snd allowNull autoIncrement negb andb].
  by destruct (is_null _).
Qed.

Lemma User_unique tbl self row :
  unique_violation U tbl self row =
  match row !! "username" with
  | Some v =>
      if negb (bool_decide (v = JNull)) && taken tbl self "username" v
      then Some "username" else None
  | None => None
  end.
Proof.
  unfold unique_violation. rewrite User_attributes.
  cbn [find fst snd unique andb].
  destruct (row !! "username") as [v|]; [|reflexivity].
  by destruct (negb _ && _).
Qed.

Lemma User_NoDup : NoDup (column_names U).
Proof.
  rewrite User_columns.
  repeat (apply NoDup_cons_2; [rewrite ?elem_of_cons, elem_of_nil; intros H; intuition discriminate|]).
  apply NoDup_nil_2.
Qed.

End IndexUser.

(* ===================================================================== *)
(** ** Invariants of the table                                            *)
(* ===================================================================== *)

Lemma changes_no_pk m (values : obj) : changes_of m values !! primaryKeyAttribute m = None.
Proof.
  unfold changes_of. apply map_lookup_filter_None. right. intros v _ [_ Hne].
  apply Hne. reflexivity.
Qed.

Lemma changes_lookup m (values : obj) n v :
  changes_of m values !! n = Some v → values !! n = Some v ∧ n ∈ column_names m.
Proof.
  unfold changes_of. intros [Hv [Hin _]]%map_lookup_filter_Some. auto.
Qed.

Lemma lookup_stamp_updated m t (row : obj) n :
  n ≠ "updatedAt" → stamp_updated m t row !! n = row !! n.
Proof.
  intros Hn. unfold stamp_updated. destruct (timestamps _); [|reflexivity].
  apply lookup_insert_ne. congruence.
Qed.

Lemma fresh_none (tbl : gmap Z obj) counter : fresh tbl counter → tbl !! counter = None.
Proof.
  intros Hf. destruct (tbl !! counter) eqn:E; [|reflexivity].
  specialize (Hf _ _ E). lia.
Qed.

(** A model keyed by [id] with a unique column [n]. *)
Section Sound.
Variable m : model.
Variable n : string.
Hypothesis m_pk : primaryKeyAttribute m = "id".
Hypothesis n_unique : ∀ tbl self (row : obj) v,
  unique_violation m tbl self row = None →
  row !! n = Some v → v ≠ JNull → taken tbl self n v = false.
Hypothesis n_not_id : n ≠ "id".
Hypothesis n_not_stamp : n ≠ "updatedAt".

Lemma insert_sound (tbl : gmap Z obj) counter (row : obj) k :
  keyed "id" tbl → fresh tbl counter → unique_on n tbl →
  unique_violation m tbl None row = None →
  tbl !! k = None →
  let stored := complete m (<["id" := JNum k]> row) in
  keyed "id" (<[k := stored]> tbl) ∧
  fresh (<[k := stored]> tbl) (Z.max counter (k + 1)) ∧
  unique_on n (<[k := stored]> tbl).
Proof.
  intros Hk Hf Hu Hun Hnone stored.
  assert (stored !! "id" = Some (JNum k)) as Hsid.
  { unfold stored. rewrite lookup_complete, lookup_insert_eq. reflexivity. }
  assert (∀ x j rj, stored !! n = Some x → x ≠ JNull → tbl !! j = Some rj →
                    rj !! n = Some x → False) as Hclash.
  { intros x j rj Hx Hxn Hrj Hxj. unfold stored in Hx.
    rewrite lookup_complete, lookup_insert_ne in Hx by congruence.
    destruct (row !! n) as [v|] eqn:Hv.
    - injection Hx as ->.
      pose proof (n_unique tbl None row x Hun Hv Hxn) as Ht.
      rewrite taken_false in Ht. apply (Ht j rj Hrj); [discriminate|exact Hxj].
    - destruct (bool_decide _); congruence. }
  split; [|split].
  - intros k' r [[<- <-]|[Hne Hr]]%lookup_insert_Some; [exact Hsid|exact (Hk _ _ Hr)].
  - intros k' r [[<- <-]|[Hne Hr]]%lookup_insert_Some; [lia|].
    specialize (Hf _ _ Hr). lia.
  - intros i j ri rj x [[<- <-]|[Hi Hri]]%lookup_insert_Some
                         [[<- <-]|[Hj Hrj]]%lookup_insert_Some Hxi Hxj Hx.
    + reflexivity.
    + exfalso. exact (Hclash x j rj Hxi Hx Hrj Hxj).
    + exfalso. exact (Hclash x i ri Hxj Hx Hri Hxi).
    + exact (Hu i j ri rj x Hri Hrj Hxi Hxj Hx).
Qed.

Lemma update_sound (tbl : gmap Z obj) counter (values inst : obj) k t :
  keyed "id" tbl → fresh tbl counter → unique_on n tbl →
  tbl !! k = Some inst →
  unique_violation m tbl (Some k) (changes_of m values) = None →
  let row := stamp_updated m t (changes_of m values ∪ inst) in
  keyed "id" (<[k := row]> tbl) ∧
  fresh (<[k := row]> tbl) counter ∧
  unique_on n (<[k := row]> tbl).
Proof.
  intros Hk Hf Hu Hinst Hun row.
  assert (row !! "id" = Some (JNum k)) as Hrid.
  { unfold row. rewrite lookup_stamp_updated by discriminate.
    rewrite lookup_union_r by (rewrite <- m_pk; apply changes_no_pk).
    exact (Hk _ _ Hinst). }
  assert (∀ j rj x, j ≠ k → tbl !! j = Some rj → row !! n = Some x →
                    rj !! n = Some x → x ≠ JNull → False) as Hclash.
  { intros j rj x Hj Hrj Hx Hxj Hxn. unfold row in Hx.
    rewrite lookup_stamp_updated in Hx by exact n_not_stamp.
    rewrite lookup_union in Hx.
    destruct (changes_of m values !! n) as [v|] eqn:Hc.
    - assert (x = v) as ->.
      { destruct (inst !! n); cbn in Hx; congruence. }
      pose proof (n_unique tbl (Some k) _ v Hun Hc Hxn) as Ht.
      rewrite taken_false in Ht. apply (Ht j rj Hrj); [congruence|exact Hxj].
    - rewrite (left_id_L None _) in Hx.
      apply Hj. exact (Hu j k rj inst x Hrj Hinst Hxj Hx Hxn). }
  split; [|split].
  - intros k' r [[<- <-]|[Hne Hr]]%lookup_insert_Some; [exact Hrid|exact (Hk _ _ Hr)].
  - intros k' r [[<- <-]|[Hne Hr]]%lookup_insert_Some; [exact (Hf _ _ Hinst)|].
    exact (Hf _ _ Hr).
  - intros i j ri rj x [[<- <-]|[Hi Hri]]%lookup_insert_Some
                         [[<- <-]|[Hj Hrj]]%lookup_insert_Some Hxi Hxj Hx.
    + reflexivity.
    + exfalso. exact (Hclash j rj x (not_eq_sym Hj) Hrj Hxi Hxj Hx).
    + exfalso. exact (Hclash i ri x (not_eq_sym Hi) Hri Hxj Hxi Hx).
    + exact (Hu i j ri rj x Hri Hrj Hxi Hxj Hx).
Qed.

Lemma delete_sound (tbl : gmap Z obj) counter k :
  keyed "id" tbl → fresh tbl counter → unique_on n tbl →
  keyed "id" (delete k tbl) ∧ fresh (delete k tbl) counter ∧
  unique_on n (delete k tbl).
Proof.
  intros Hk Hf Hu. split; [|split].
  - intros k' r [_ Hr]%lookup_delete_Some. exact (Hk _ _ Hr).
  - intros k' r [_ Hr]%lookup_delete_Some. exact (Hf _ _ Hr).
  - intros i j ri rj x [_ Hri]%lookup_delete_Some [_ Hrj]%lookup_delete_Some.
    exact (Hu i j ri rj x Hri Hrj).
Qed.

Lemma step_sound w w' : sound n w → db_step m w w' → sound n w'.
Proof.
  intros (Hk & Hf & Hu) Hstep. unfold sound.
  destruct Hstep as [Ht Hn | values k Hnn Hun Hkey Hnone Ht Hn
                     | j k inst values Hj Hpk Hnn Hun Ht Hn
                     | j k inst Hj Hpk Ht Hn]; rewrite Ht.
  - split; [exact Hk|]. split; [|exact Hu].
    intros k r Hr. specialize (Hf _ _ Hr). lia.
  - rewrite Hn, m_pk. apply insert_sound; assumption.
  - rewrite Hn. pose proof (Hk _ _ Hj) as Hid. rewrite m_pk, Hid in Hpk.
    injection Hpk as <-. rewrite Hj.
    apply update_sound; assumption.
  - rewrite Hn. apply delete_sound; assumption.
Qed.

End Sound.

Lemma dom_complete m (row : obj) :
  dom (complete m row) = dom row ∪ list_to_set (column_names m).
Proof.
  apply set_eq. intros n.
  rewrite elem_of_union, !elem_of_dom, elem_of_list_to_set, lookup_complete.
  destruct (row !! n) as [v|].
  - split; [left|]; eauto.
  - case_bool_decide as Hn.
    + split; [right; exact Hn|eauto].
    + split; [intros [? ?]; discriminate|].
      intros [[? ?]|?]; [discriminate|contradiction].
Qed.

Lemma dom_build m (values : obj) :
  dom (build m values) ⊆ list_to_set (column_names m).
Proof.
  unfold build, column_names.
  induction (rawAttributes m) as [|[n a] l IH]; cbn.
  - rewrite dom_empty_L. apply empty_subseteq.
  - destruct (values !! n); [rewrite dom_insert_L; set_solver|].
    destruct (defaultValue a); [rewrite dom_insert_L; set_solver|set_solver].
Qed.

Lemma dom_changes m (values : obj) :
  dom (changes_of m values) ⊆ list_to_set (column_names m).
Proof.
  intros n [v Hv]%elem_of_dom. apply changes_lookup in Hv as [_ Hin].
  apply elem_of_list_to_set. exact Hin.
Qed.

(* ===================================================================== *)
(** ** The user model of index.js                                         *)
(* ===================================================================== *)

Section IndexUserShape.
Variable pluralize : string -> string.
Local Abbreviation U := (Index.User pluralize).

Lemma User_column_set : list_to_set (column_names U) = user_columns.
Proof. rewrite User_columns. unfold user_columns. set_solver. Qed.

Lemma User_unique_taken tbl self (row : obj) v :
  unique_violation U tbl self row = None →
  row !! "username" = Some v → v ≠ JNull → taken tbl self "username" v = false.
Proof.
  intros Hun Hv Hvn. rewrite User_unique, Hv in Hun.
  rewrite bool_decide_eq_false_2 in Hun by exact Hvn. cbn [negb andb] in Hun.
  destruct (taken _ _ _ _); [discriminate|reflexivity].
Qed.

Lemma User_step_consistent w w' : consistent w → db_step U w w' → consistent w'.
Proof.
  apply (step_sound U "username").
  - reflexivity.
  - apply User_unique_taken.
  - discriminate.
  - discriminate.
Qed.

Lemma stored_shape (row : obj) k :
  dom row ⊆ user_columns →
  dom (complete U (<["id" := JNum k]> row)) = user_columns.
Proof.
  intros Hb. rewrite dom_complete, dom_insert_L, User_column_set.
  unfold user_columns in *. set_solver.
Qed.

Lemma built_shape (values : obj) : dom (build U values) ⊆ user_columns.
Proof. rewrite <- User_column_set. apply dom_build. Qed.

Lemma updated_shape (values inst : obj) :
  dom inst = user_columns → dom (changes_of U values ∪ inst) = user_columns.
Proof.
  intros Hi. rewrite dom_union_L, Hi.
  pose proof (dom_changes U values) as Hc. rewrite User_column_set in Hc.
  set_solver.
Qed.

Lemma step_shaped w w' :
  shaped user_columns (table w) → db_step U w w' → shaped user_columns (table w').
Proof.
  intros Hs Hstep.
  destruct Hstep as [Ht Hn | values k Hnn Hun Hkey Hnone Ht Hn
                     | j k inst values Hj Hpk Hnn Hun Ht Hn
                     | j k inst Hj Hpk Ht Hn]; rewrite Ht.
  - exact Hs.
  - intros k' r [[<- <-]|[Hne Hr]]%lookup_insert_Some; [|exact (Hs _ _ Hr)].
    apply stored_shape, built_shape.
  - destruct (table w !! k) as [old|] eqn:Hold; [|exact Hs].
    intros k' r [[<- <-]|[Hne Hr]]%lookup_insert_Some; [|exact (Hs _ _ Hr)].
    apply updated_shape. exact (Hs _ _ Hj).
  - intros k' r [_ Hr]%lookup_delete_Some. exact (Hs _ _ Hr).
Qed.

Lemma altered_shape (db : gmap Z obj) : shaped user_columns (alter_rows U db).
Proof.
  intros k row Hrow. rewrite lookup_alter_rows in Hrow.
  destruct (db !! k) as [old|]; [|discriminate]. injection Hrow as <-.
  rewrite dom_conform. apply User_column_set.
Qed.

End IndexUserShape.

(* ===================================================================== *)
(** ** Creating and changing users of index.js                            *)
(* ===================================================================== *)

Lemma complete_includes m (row : obj) : row ⊆ complete m row.
Proof.
  apply map_subseteq_spec. intros n v Hv. rewrite lookup_complete, Hv. reflexivity.
Qed.

Section IndexUserCalls.
Variable pluralize : string -> string.
Local Abbreviation U := (Index.User pluralize).

(** [create] on the user model of index.js, case by case. *)
Lemma User_create_run (values : obj) w :
  values !! "id" = None →
  fresh (table w) (next_id w) →
  create U values w =
  match values !! "username" with
  | None => (Throw (ValidationError "username"), w)
  | Some v =>
      if bool_decide (v = JNull) then (Throw (ValidationError "username"), w)
      else
        let w1 := sent "mysql" (Insert "user") w in
        if up w (tick w) then
          if taken (table w) None "username" v
          then (Throw (UniqueConstraintError "username"),
                set_next_id (next_id w + 1) w1)
          else
            let inst := <["id" := JNum (next_id w)]> (build U values) in
            (Ok inst,
             set_next_id (next_id w + 1)
               (set_table (insert (next_id w) (complete U inst)) w1))
        else (Throw ConnectionError, w1)
  end.
Proof.
  intros Hid Hf. rewrite create_run. cbv zeta.
  rewrite User_stamp_created, User_notNull, User_unique, User_pk.
  unfold generated. rewrite User_pk.
  assert (build U values !! "id" = None) as Hbid.
  { rewrite lookup_build by apply User_NoDup. cbn. rewrite Hid. reflexivity. }
  assert (build U values !! "username" = values !! "username") as Hbu.
  { rewrite lookup_build by apply User_NoDup. cbn. destruct (values !! "username"); reflexivity. }
  rewrite Hbid, Hbu, (fresh_none _ _ Hf).
  change (dialect_of U) with "mysql". change (tableName U) with "user".
  destruct (values !! "username") as [v|]; [|reflexivity].
  destruct v; cbn [is_null]; try reflexivity;
    (rewrite bool_decide_eq_false_2 by discriminate); cbn [negb andb];
    (destruct (up w (tick w)); [|reflexivity]);
    (destruct (taken _ _ _ _); [reflexivity|]);
    (replace (Z.max (next_id w) (next_id w + 1)) with (next_id w + 1) by lia);
    reflexivity.
Qed.

Lemma User_built_age (values : obj) :
  build U values !! "age" = Some (default (JNum 22) (values !! "age")).
Proof.
  rewrite lookup_build by apply User_NoDup. cbn. destruct (values !! "age"); reflexivity.
Qed.

Lemma User_built_password (values : obj) :
  build U values !! "password" = values !! "password".
Proof.
  rewrite lookup_build by apply User_NoDup. cbn. destruct (values !! "password"); reflexivity.
Qed.

Lemma User_built_username (values : obj) :
  build U values !! "username" = values !! "username".
Proof.
  rewrite lookup_build by apply User_NoDup. cbn. destruct (values !! "username"); reflexivity.
Qed.

End IndexUserCalls.

(** C8: in the user model of index.js, [id] is the primary key, an
    INTEGER with autoIncrement, and [age] an INTEGER with default 22.
    Creating a user from values without [id], with a username no row
    holds, on a reachable database, succeeds: the record gets the
    table's counter as its id and the counter moves on by one; its age,
    in the record that comes back and in the row that is stored, is the
    age given, and 22 when none was given. *)
Theorem id_and_age_columns (pluralize : string -> string)
    (values : obj) (w : world) (v : value) :
  values !! "id" = None →
  values !! "username" = Some v →
  v ≠ JNull →
  taken (table w) None "username" v = false →
  fresh (table w) (next_id w) →
  up w (tick w) = true →
  attribute_of (Index.User pluralize) "id" =
    Some (mkAttribute INTEGER true false true true None) ∧
  primaryKeyAttribute (Index.User pluralize) = "id" ∧
  attribute_of (Index.User pluralize) "age" =
    Some (mkAttribute INTEGER true false false false (Some (JNum 22))) ∧
  ∃ inst w' stored,
    create (Index.User pluralize) values w = (Ok inst, w') ∧
    inst !! "id" = Some (JNum (next_id w)) ∧
    inst !! "age" = Some (default (JNum 22) (values !! "age")) ∧
    table w' = <[next_id w := stored]> (table w) ∧
    stored !! "id" = Some (JNum (next_id w)) ∧
    stored !! "age" = Some (default (JNum 22) (values !! "age")) ∧
    next_id w' = next_id w + 1.
Proof.
  intros Hid Hv Hvn Ht Hf Hup.
  split; [reflexivity|]. split; [reflexivity|]. split; [reflexivity|].
  rewrite (User_create_run pluralize values w Hid Hf), Hv.
  rewrite bool_decide_eq_false_2 by exact Hvn. cbv zeta. rewrite Hup, Ht.
  eexists _, _, _. split; [reflexivity|].
  split; [apply lookup_insert_eq|].
  split; [rewrite lookup_insert_ne by discriminate; apply User_built_age|].
  split; [reflexivity|].
  split; [rewrite lookup_complete, lookup_insert_eq; reflexivity|].
  split; [|reflexivity].
  rewrite lookup_complete, lookup_insert_ne by discriminate.
  rewrite User_built_age. reflexivity.
Qed.

(** X15: [User.create] on the user model of index.js, given values
    without [id], from a consistent table (rows keyed by their id,
    counter above every key, usernames unique). It fails with a
    validation error, nothing sent, when the username is missing or
    null; with a unique-constraint error, the table as it was, when a
    row holds the username; with a connection error when the database
    cannot be reached. Otherwise it returns the created record: its id
    is the table's counter, its username and password are those given,
    its age the one given or 22; that record is stored, NULL in the
    columns it lacks. The table stays consistent, so usernames stay
    unique, under [create], and under every other call on the model:
    [update] and [destroy] on a row of the table, [findAll] and
    [findByPk]. *)
Theorem model_create_contract (pluralize : string -> string)
    (values : obj) (w : world) :
  consistent w →
  values !! "id" = None →
  let U := Index.User pluralize in
  let out := create U values w in
  match values !! "username" with
  | None => out = (Throw (ValidationError "username"), w)
  | Some v =>
      if bool_decide (v = JNull)
      then out = (Throw (ValidationError "username"), w)
      else if up w (tick w) then
        if taken (table w) None "username" v
        then out.1 = Throw (UniqueConstraintError "username") ∧
             table out.2 = table w
        else
          ∃ inst,
            out.1 = Ok inst ∧
            inst !! "id" = Some (JNum (next_id w)) ∧
            inst !! "username" = Some v ∧
            inst !! "password" = values !! "password" ∧
            inst !! "age" = Some (default (JNum 22) (values !! "age")) ∧
            table out.2 = <[next_id w := complete U inst]> (table w) ∧
            next_id out.2 = next_id w + 1
      else out.1 = Throw ConnectionError ∧ table out.2 = table w
  end ∧
  (∀ values', consistent (create U values' w).2) ∧
  (∀ k inst values', table w !! k = Some inst →
     consistent (update U inst values' w).2) ∧
  (∀ k inst, table w !! k = Some inst → consistent (destroy U inst w).2) ∧
  consistent (findAll U w).2 ∧
  (∀ param, consistent (findByPk U param w).2).
Proof.
  intros Hc Hid U out. subst U out.
  split; [|split; [|split; [|split; [|split]]]].
  - rewrite (User_create_run pluralize values w Hid (proj1 (proj2 Hc))).
    destruct (values !! "username") as [v|] eqn:Hv; [|reflexivity].
    destruct (bool_decide (v = JNull)); [reflexivity|]. cbv zeta.
    destruct (up w (tick w)); [|split; reflexivity].
    destruct (taken _ _ _ _); [split; reflexivity|].
    eexists. split; [reflexivity|].
    split; [apply lookup_insert_eq|].
    rewrite !lookup_insert_ne by discriminate.
    rewrite User_built_username, User_built_password, User_built_age, Hv.
    repeat split.
  - intros values'. eapply User_step_consistent; [exact Hc|apply create_steps].
  - intros k inst values' Hk.
    eapply User_step_consistent; [exact Hc|eapply update_steps; exact Hk].
  - intros k inst Hk.
    eapply User_step_consistent; [exact Hc|eapply destroy_steps; exact Hk].
  - eapply User_step_consistent; [exact Hc|apply findAll_steps].
  - intros param. eapply User_step_consistent; [exact Hc|apply findByPk_steps].
Qed.

(** C9, as stated, at the creation of carol: the record [create]
    returns has the three attributes that were set, [id], [username]
    and [age], and no [password]. *)
Lemma created_record_lacks_password :
  ∃ inst w',
    create (Index.User (fun s => s)) (body post_carol_bare) sample = (Ok inst, w') ∧
    inst = {[ "id" := JNum 2; "username" := JStr "carol"; "age" := JNum 22 ]} ∧
    inst !! "password" = None ∧
    dom inst ≠ user_columns.
Proof.
  eexists _, _. split; [vm_compute; reflexivity|].
  split; [vm_compute; reflexivity|]. split; [reflexivity|].
  intros Hd. assert ("password" ∈ user_columns) as Hin by (unfold user_columns; set_solver).
  rewrite <- Hd in Hin. apply elem_of_dom in Hin as [x Hx]. discriminate Hx.
Qed.

(** C9, as the sources have it: the user model of index.js has the
    four columns [id], [username], [password], [age] and, with
    [timestamps] off, neither [createdAt] nor [updatedAt] (the model of
    the README's routes has both). When the startup sync gets through,
    every row of the table has exactly these four attributes, whatever
    the table held before. From a table of such rows: [create] stores a
    row of exactly these four attributes, and the record it returns has
    the attributes that were set, all among the four; [update] on a row
    stores and returns a record of exactly the four; [destroy] leaves
    such rows; [findByPk] returns such a row. *)
Theorem user_rows_have_four_attributes (pluralize : string -> string) (w : world) :
  shaped user_columns (table w) →
  let U := Index.User pluralize in
  column_names U = ["id"; "username"; "password"; "age"] ∧
  timestamps (modelOptions U) = false ∧
  attribute_of U "createdAt" = None ∧
  attribute_of U "updatedAt" = None ∧
  column_names (readme_user pluralize) =
    ["id"; "username"; "email"; "createdAt"; "updatedAt"] ∧
  (∀ db counter clock net,
     let w0 := run (Index.main pluralize) (boot db counter clock net) in
     if net 1%nat && net 2%nat then shaped user_columns (table w0)
     else table w0 = db) ∧
  (∀ values,
     shaped user_columns (table (create U values w).2) ∧
     ∀ inst w', create U values w = (Ok inst, w') →
       dom inst ⊆ user_columns ∧
       ∃ k row, inst !! "id" = Some (JNum k) ∧ table w' !! k = Some row ∧
                dom row = user_columns ∧ inst ⊆ row) ∧
  (∀ k inst values, table w !! k = Some inst →
     shaped user_columns (table (update U inst values w).2) ∧
     ∀ inst' w', update U inst values w = (Ok inst', w') →
       dom inst' = user_columns) ∧
  (∀ k inst, table w !! k = Some inst →
     shaped user_columns (table (destroy U inst w).2)) ∧
  (∀ k row w', findByPk U (Some k) w = (Ok (Some row), w') →
     dom row = user_columns).
Proof.
  intros Hs U. subst U. repeat (split; [reflexivity|]).
  split; [|split; [|split; [|split]]].
  - intros db counter clock net w0. subst w0. rewrite index_run. cbn [table].
    destruct (net 1%nat && net 2%nat); [apply altered_shape|reflexivity].
  - intros values.
    split; [eapply step_shaped; [exact Hs|apply create_steps]|].
    intros inst w'. rewrite create_run. cbv zeta.
    rewrite User_stamp_created, User_pk.
    destruct (notNull_violation _ _); [discriminate|].
    destruct (up w (tick w)); [|discriminate].
    destruct (unique_violation _ _ _ _); [discriminate|].
    match goal with |- context [table w !! ?k] =>
      set (key := k); destruct (table w !! key) end; [discriminate|].
    intros [= <- <-]. split.
    + rewrite dom_insert_L. pose proof (built_shape pluralize values) as Hb.
      unfold user_columns in *. set_solver.
    + exists key, (complete (Index.User pluralize)
                     (<["id" := JNum key]> (build (Index.User pluralize) values))).
      split; [apply lookup_insert_eq|].
      split; [cbn; apply lookup_insert_eq|].
      split; [apply stored_shape, built_shape|apply complete_includes].
  - intros k inst values Hk.
    split; [eapply step_shaped; [exact Hs|eapply update_steps; exact Hk]|].
    intros inst' w'. rewrite update_run. cbv zeta. rewrite User_stamp_updated.
    pose proof (Hs _ _ Hk) as Hd.
    destruct (notNull_violation_in _ _); [discriminate|].
    destruct (bool_decide (changes_of _ values = ∅)); [intros [= <- _]; exact Hd|].
    destruct (bool_decide (changes_of _ values ∪ inst = inst));
      [intros [= <- _]; apply updated_shape; exact Hd|].
    destruct (inst !! _) as [[| j | |]|]; try discriminate.
    destruct (up w (tick w)); [|discriminate].
    destruct (unique_violation _ _ _ _); [discriminate|].
    intros [= <- _]. apply updated_shape; exact Hd.
  - intros k inst Hk. eapply step_shaped; [exact Hs|eapply destroy_steps; exact Hk].
  - intros k row w'. rewrite findByPk_run.
    destruct (up w (tick w)); [|discriminate].
    intros [= Hrow _]. exact (Hs _ _ Hrow).
Qed.

(* ===================================================================== *)
(** ** The user model of the README                                       *)
(* ===================================================================== *)

Lemma complete_full m (row : obj) :
  (∀ n, n ∈ column_names m → is_Some (row !! n)) → complete m row = row.
Proof.
  intros Hall. apply map_eq. intros n. rewrite lookup_complete.
  destruct (row !! n) eqn:Hn; [reflexivity|].
  case_bool_decide as Hin; [|reflexivity].
  destruct (Hall n Hin) as [v Hv]. congruence.
Qed.

Ltac lookup_keys :=
  repeat first [ rewrite lookup_insert_eq
               | rewrite lookup_insert_ne by congruence
               | rewrite lookup_singleton_eq
               | rewrite lookup_singleton_ne by congruence
               | rewrite lookup_empty ].

Section ReadmeUser.
Variable pluralize : string -> string.
Local Abbreviation R := (readme_user pluralize).

Lemma R_attributes :
  rawAttributes R =
    [ ("id",        mkAttribute INTEGER false false true  true  None);
      ("username",  mkAttribute STRING  false false false false None);
      ("email",     mkAttribute STRING  false true  false false None);
      ("createdAt", mkAttribute DATE    false false false false None);
      ("updatedAt", mkAttribute DATE    false false false false None) ].
Proof. reflexivity. Qed.

Lemma R_columns : column_names R = ["id"; "username"; "email"; "createdAt"; "updatedAt"].
Proof. reflexivity. Qed.

Lemma R_pk : primaryKeyAttribute R = "id".
Proof. reflexivity. Qed.

Lemma R_stamp_created t row :
  stamp_created R t row = <["updatedAt" := JDate t]> (<["createdAt" := JDate t]> row).
Proof. reflexivity. Qed.

Lemma R_stamp_updated t row : stamp_updated R t row = <["updatedAt" := JDate t]> row.
Proof. reflexivity. Qed.

Lemma R_unique tbl self row :
  unique_violation R tbl self row =
  match row !! "email" with
  | Some v =>
      if negb (bool_decide (v = JNull)) && taken tbl self "email" v
      then Some "email" else None
  | None => None
  end.
Proof.
  unfold unique_violation. rewrite R_attributes.
  cbn [find fst snd unique andb].
  destruct (row !! "email") as [v|]; [|reflexivity].
  by destruct (negb _ && _).
Qed.



(** What the handlers forward is what [update] sets. *)
Lemma R_changes (b : obj) :
  changes_of R (pick ["username"; "email"] b) = pick ["username"; "email"] b.
Proof.
  apply map_eq. intros i. unfold changes_of.
  destruct (pick ["username"; "email"] b !! i) as [x|] eqn:Hp.
  - apply map_lookup_filter_Some. split; [exact Hp|]. cbn [fst].
    rewrite lookup_pick in Hp. case_bool_decide as Hi; [|discriminate].
    rewrite R_columns, R_pk. rewrite !elem_of_cons, elem_of_nil in Hi.
    destruct Hi as [->|[->|[]]]; (split; [rewrite !elem_of_cons; auto|discriminate]).
  - apply map_lookup_filter_None. left. exact Hp.
Qed.

Lemma R_notNull_in (b : obj) :
  notNull_violation_in R (pick ["username"; "email"] b) =
  if bool_decide (pick ["username"; "email"] b !! "username" = Some JNull)
  then Some "username"
  else if bool_decide (pick ["username"; "email"] b !! "email" = Some JNull)
  then Some "email" else None.
Proof.
  unfold notNull_violation_in. rewrite R_attributes.
  cbn [find fst snd allowNull negb andb].
  rewrite (lookup_pick _ _ "id"), (lookup_pick _ _ "createdAt"),
    (lookup_pick _ _ "updatedAt").
  change (bool_decide ("id" ∈ ["username"; "email"])) with false.
  change (bool_decide ("createdAt" ∈ ["username"; "email"])) with false.
  change (bool_decide ("updatedAt" ∈ ["username"; "email"])) with false.
  cbv iota.
  rewrite (bool_decide_eq_false_2 (None = Some JNull)) by discriminate.
  destruct (bool_decide (_ !! "username" = _)); [reflexivity|].
  destruct (bool_decide (_ !! "email" = _)); reflexivity.
Qed.

Lemma R_built (b : obj) u e :
  b !! "username" = Some u → b !! "email" = Some e →
  build R (pick ["username"; "email"] b) = {[ "username" := u; "email" := e ]}.
Proof.
  intros Hu He. unfold build. rewrite R_attributes. cbn [foldr fst snd defaultValue].
  rewrite !lookup_pick.
  change (bool_decide ("id" ∈ ["username"; "email"])) with false.
  change (bool_decide ("username" ∈ ["username"; "email"])) with true.
  change (bool_decide ("email" ∈ ["username"; "email"])) with true.
  change (bool_decide ("createdAt" ∈ ["username"; "email"])) with false.
  change (bool_decide ("updatedAt" ∈ ["username"; "email"])) with false.
  cbv iota. rewrite Hu, He. reflexivity.
Qed.

Lemma R_instance k u e t :
  <["id" := JNum k]>
    (<["updatedAt" := JDate t]>
       (<["createdAt" := JDate t]> ({[ "username" := u; "email" := e ]} : obj)))
  = readme_row k u e t t.
Proof.
  unfold readme_row. apply map_eq. intros i.
  destruct (decide (i = "id")) as [->|]; [lookup_keys; reflexivity|].
  destruct (decide (i = "username")) as [->|]; [lookup_keys; reflexivity|].
  destruct (decide (i = "email")) as [->|]; [lookup_keys; reflexivity|].
  destruct (decide (i = "createdAt")) as [->|]; [lookup_keys; reflexivity|].
  destruct (decide (i = "updatedAt")) as [->|]; lookup_keys; reflexivity.
Qed.

Lemma R_row_complete k u e c t : complete R (readme_row k u e c t) = readme_row k u e c t.
Proof.
  apply complete_full. intros n Hn. rewrite R_columns in Hn.
  rewrite !elem_of_cons, elem_of_nil in Hn. unfold readme_row.
  destruct Hn as [->|[->|[->|[->|[->|[]]]]]]; lookup_keys; eauto.
Qed.

(** [POST /users] with a username and an email, neither null. *)
Lemma R_post_run req w u e :
  body req !! "username" = Some u → body req !! "email" = Some e →
  u ≠ JNull → e ≠ JNull →
  Readme.create_user R req w =
  let w1 := sent "mysql" (Insert (pluralize "User")) w in
  let row := readme_row (next_id w) u e (now w) (now w) in
  if up w (tick w) then
    if taken (table w) None "email" e
    then fail500 "Error creating user:" (UniqueConstraintError "email")
           (set_next_id (next_id w + 1) w1)
    else
      match table w !! next_id w with
      | Some _ => fail500 "Error creating user:" (UniqueConstraintError "id") w1
      | None =>
          (Ok tt,
           responded (mkResponse 200 (Json row))
             (set_next_id (Z.max (next_id w) (next_id w + 1))
                (set_table (insert (next_id w) row) w1)))
      end
  else fail500 "Error creating user:" ConnectionError w1.
Proof.
  intros Hu He Hun Hen.
  unfold Readme.create_user, Readme.create_user_try, try_catch, bind.
  rewrite create_run. cbv zeta.
  rewrite (R_built _ u e Hu He), R_stamp_created, R_unique, R_pk.
  unfold generated. rewrite R_pk.
  assert (notNull_violation R
            (<["updatedAt" := JDate (now w)]>
               (<["createdAt" := JDate (now w)]>
                  ({[ "username" := u; "email" := e ]} : obj))) = None) as ->.
  { unfold notNull_violation. rewrite R_attributes.
    cbn [find fst snd allowNull autoIncrement negb andb]. lookup_keys.
    destruct u; [congruence|..]; destruct e; try congruence; reflexivity. }
  lookup_keys. rewrite bool_decide_eq_false_2 by exact Hen. cbn [negb andb].
  rewrite R_instance, R_row_complete.
  change (dialect_of R) with "mysql". change (tableName R) with (pluralize "User").
  destruct (up w (tick w)); [|reflexivity].
  destruct (taken _ _ _ _); [reflexivity|].
  destruct (table w !! next_id w); reflexivity.
Qed.


(** [PUT /users/:id] on the key of a row, the lookup answered. *)
Lemma R_put_run req w k row :
  params req !! "id" = Some k →
  table w !! k = Some row →
  row !! "id" = Some (JNum k) →
  up w (tick w) = true →
  Readme.update_user R req w =
  let changes := pick ["username"; "email"] (body req) in
  let w1 := sent "mysql" (SelectByPk (pluralize "User") k) w in
  let w2 := sent "mysql" (Update (pluralize "User") k) w1 in
  let row' := <["updatedAt" := JDate (now w)]> (changes ∪ row) in
  if bool_decide (changes !! "username" = Some JNull)
  then fail500 "Error updating user by ID:" (ValidationError "username") w1
  else if bool_decide (changes !! "email" = Some JNull)
  then fail500 "Error updating user by ID:" (ValidationError "email") w1
  else if bool_decide (changes = ∅)
  then (Ok tt, responded (mkResponse 200 (Json row)) w1)
  else if bool_decide (changes ∪ row = row)
  then (Ok tt, responded (mkResponse 200 (Json row')) w1)
  else if up w (S (tick w)) then
    if match changes !! "email" with
       | Some e => taken (table w) (Some k) "email" e
       | None => false
       end
    then fail500 "Error updating user by ID:" (UniqueConstraintError "email") w2
    else (Ok tt, responded (mkResponse 200 (Json row')) (set_table (insert k row') w2))
  else fail500 "Error updating user by ID:" ConnectionError w2.
Proof.
  intros Hid Hrow Hpk Hup.
  unfold Readme.update_user, Readme.update_user_try, try_catch, bind.
  rewrite Hid, findByPk_run, Hup. cbv beta iota. rewrite Hrow.
  rewrite update_run. cbv zeta.
  rewrite R_changes, R_notNull_in, R_stamp_updated, R_pk, Hpk, R_unique.
  change (dialect_of R) with "mysql". change (tableName R) with (pluralize "User").
  set (changes := pick ["username"; "email"] (body req)).
  set (w1 := sent "mysql" (SelectByPk (pluralize "User") k) w).
  change (table w1) with (table w). change (now w1) with (now w).
  change (up w1 (tick w1)) with (up w (S (tick w))).
  destruct (bool_decide (changes !! "username" = Some JNull)); [reflexivity|].
  destruct (bool_decide (changes !! "email" = Some JNull)) eqn:Hnull; [reflexivity|].
  destruct (bool_decide (changes = ∅)); [reflexivity|].
  destruct (bool_decide (changes ∪ row = row)); [reflexivity|].
  destruct (up w (S (tick w))); [|reflexivity].
  destruct (changes !! "email") as [e|] eqn:He.
  - apply bool_decide_eq_false in Hnull.
    rewrite bool_decide_eq_false_2 by congruence. cbn [negb andb].
    destruct (taken _ _ _ _); [reflexivity|].
    unfold w1. unfold set_table, sent, responded, res_json, modify.
    cbn [table next_id now up tick queries console responses listening exited].
    rewrite Hrow. reflexivity.
  - unfold w1. unfold set_table, sent, responded, res_json, modify.
    cbn [table next_id now up tick queries console responses listening exited].
    rewrite Hrow. reflexivity.
Qed.

End ReadmeUser.

(* ===================================================================== *)
(** ** The routes of the README, one request at a time                    *)
(* ===================================================================== *)

Lemma readme_row_email k u e c t : readme_row k u e c t !! "email" = Some e.
Proof. unfold readme_row. lookup_keys. reflexivity. Qed.



(** C2, as the sources have it: PUT /users/:id of the README's
    application, on its own user model, with the database reachable. An
    id without a row is answered 404 "User not found" and the table is
    untouched. For an id with a row, the handler forwards [username] and
    [email] from the body and nothing else. A null value for either is
    rejected with 500. When the two hold nothing new, the row is sent
    back with status 200, nothing but the lookup is sent to the database
    and the table is as it was. Otherwise an email another row holds is
    rejected with 500; else the row is saved with the forwarded values
    and [updatedAt] at the clock, every other attribute ([id] and
    [createdAt] among them) as it was, and is sent back with status 200.
    The counter stays. *)
Theorem update_by_id (pluralize : string -> string) (req : request) (w : world) (k : Z) :
  params req !! "id" = Some k →
  keyed "id" (table w) →
  up w (tick w) = true →
  up w (S (tick w)) = true →
  let out := Readme.update_user (readme_user pluralize) req w in
  let changes := pick ["username"; "email"] (body req) in
  out.1 = Ok tt ∧
  next_id out.2 = next_id w ∧
  match table w !! k with
  | None =>
      responses out.2 =
        (responses w ++ [mkResponse 404 (Text "User not found")])%list ∧
      table out.2 = table w
  | Some row =>
      let row' := <["updatedAt" := JDate (now w)]> (changes ∪ row) in
      if bool_decide (changes !! "username" = Some JNull ∨
                      changes !! "email" = Some JNull)
      then rejected w out.2
      else if bool_decide (changes ∪ row = row)
      then
        table out.2 = table w ∧
        queries out.2 =
          (queries w ++ [("mysql", SelectByPk (pluralize "User") k)])%list ∧
        ∃ r, responses out.2 = (responses w ++ [mkResponse 200 (Json r)])%list ∧
             ∀ n, n ≠ "updatedAt" → r !! n = row !! n
      else if match changes !! "email" with
              | Some e => taken (table w) (Some k) "email" e
              | None => false
              end
      then rejected w out.2
      else
        responses out.2 = (responses w ++ [mkResponse 200 (Json row')])%list ∧
        table out.2 = <[k := row']> (table w) ∧
        ∀ n, n ∉ ["username"; "email"; "updatedAt"] → row' !! n = row !! n
  end.
Proof.
  intros Hid Hk Hup0 Hup1 out changes. subst out.
  destruct (table w !! k) as [row|] eqn:Hrow.
  - rewrite (R_put_run pluralize req w k row Hid Hrow (Hk _ _ Hrow) Hup0).
    cbv zeta. fold changes. rewrite Hup1.
    destruct (bool_decide (changes !! "username" = Some JNull)) eqn:Hnu.
    { rewrite bool_decide_eq_true_2
        by (left; apply bool_decide_eq_true in Hnu; exact Hnu).
      repeat split. }
    destruct (bool_decide (changes !! "email" = Some JNull)) eqn:Hne.
    { rewrite bool_decide_eq_true_2
        by (right; apply bool_decide_eq_true in Hne; exact Hne).
      repeat split. }
    apply bool_decide_eq_false in Hnu, Hne.
    rewrite (bool_decide_eq_false_2 (_ ∨ _)) by tauto.
    destruct (bool_decide (changes = ∅)) eqn:Hempty.
    { apply bool_decide_eq_true in Hempty.
      rewrite bool_decide_eq_true_2 by (rewrite Hempty; apply (left_id_L ∅ (∪))).
      split; [reflexivity|]. split; [reflexivity|]. split; [reflexivity|].
      split; [reflexivity|]. exists row. split; [reflexivity|]. reflexivity. }
    destruct (bool_decide (changes ∪ row = row)) eqn:Hsame.
    { apply bool_decide_eq_true in Hsame.
      split; [reflexivity|]. split; [reflexivity|]. split; [reflexivity|].
      split; [reflexivity|]. eexists. split; [reflexivity|].
      intros n Hn. rewrite lookup_insert_ne by congruence. rewrite Hsame. reflexivity. }
    destruct (match changes !! "email" with
              | Some e => taken (table w) (Some k) "email" e
              | None => false
              end); [repeat split|].
    split; [reflexivity|]. split; [reflexivity|]. split; [reflexivity|].
    split; [reflexivity|].
    intros n Hn. rewrite !not_elem_of_cons in Hn. destruct Hn as (Hn1 & Hn2 & Hn3 & _).
    rewrite lookup_insert_ne by congruence.
    rewrite lookup_union_r; [reflexivity|].
    unfold changes. rewrite lookup_pick. rewrite bool_decide_eq_false_2; [reflexivity|].
    rewrite !not_elem_of_cons. split; [exact Hn1|]. split; [exact Hn2|].
    apply not_elem_of_nil.
  - unfold Readme.update_user, Readme.update_user_try, try_catch, bind.
    rewrite Hid, findByPk_run, Hup0. cbv beta iota. rewrite Hrow.
    repeat split.
Qed.

(** C2, as stated, on alice's row of the README's table: PUT /users/1
    with username bob, email bob@example.com and age 30 is answered 200;
    the row is renamed and its email, a field other than username and
    age, is overwritten; the age of the body is stored nowhere. *)
Lemma put_overwrites_email_not_age :
  let out := Readme.update_user (readme_user (fun s => s)) put_bob library in
  status <$> last (responses out.2) = Some 200 ∧
  (table library !! 1) ≫= (fun row => row !! "email")
    = Some (JStr "alice@example.com") ∧
  (table out.2 !! 1) ≫= (fun row => row !! "username") = Some (JStr "bob") ∧
  (table out.2 !! 1) ≫= (fun row => row !! "email") = Some (JStr "bob@example.com") ∧
  (table out.2 !! 1) ≫= (fun row => row !! "age") = None.
Proof. vm_compute. repeat split. Qed.

(** C4: with the database reachable, GET /users/:id answers 404 "User
    not found" when no row has the key, and 200 with the row as JSON
    when one has. *)
Theorem read_by_id (User : model) (req : request) (w : world) (k : Z) :
  params req !! "id" = Some k →
  up w (tick w) = true →
  Readme.get_user User req w =
    (Ok tt,
     responded
       (match table w !! k with
        | Some row => mkResponse 200 (Json row)
        | None => mkResponse 404 (Text "User not found")
        end)
       (sent (dialect_of User) (SelectByPk (tableName User) k) w)).
Proof.
  intros Hid Hup.
  unfold Readme.get_user, Readme.get_user_try, try_catch, bind.
  rewrite Hid, findByPk_run, Hup. cbn.
  destruct (table w !! k); reflexivity.
Qed.

(** C5: with the database reachable, DELETE /users/:id on the key of a
    row removes the row and answers 200 with the message "User deleted
    successfully"; GET /users/:id on the same key then answers 404. *)
Theorem delete_then_read (User : model) (req : request) (w : world)
    (k : Z) (row : obj) :
  params req !! "id" = Some k →
  table w !! k = Some row →
  row !! primaryKeyAttribute User = Some (JNum k) →
  up w (tick w) = true →
  up w (S (tick w)) = true →
  up w (S (S (tick w))) = true →
  ∃ w1 w2,
    Readme.delete_user User req w = (Ok tt, w1) ∧
    table w1 = delete k (table w) ∧
    responses w1 =
      (responses w ++
       [mkResponse 200 (Json {[ "message" := JStr "User deleted successfully" ]})])%list ∧
    Readme.get_user User req w1 = (Ok tt, w2) ∧
    responses w2 = (responses w1 ++ [mkResponse 404 (Text "User not found")])%list ∧
    table w2 !! k = None.
Proof.
  intros Hid Hrow Hpk Hup0 Hup1 Hup2.
  unfold Readme.delete_user, Readme.delete_user_try, try_catch, bind.
  rewrite Hid, findByPk_run, Hup0. cbn. rewrite Hrow.
  rewrite destroy_run, Hpk. cbn. rewrite Hup1. cbn.
  eexists _, _. split; [reflexivity|]. cbn. split; [reflexivity|].
  split; [reflexivity|].
  unfold Readme.get_user, Readme.get_user_try, try_catch, bind.
  rewrite Hid, findByPk_run. cbn. rewrite Hup2. cbn.
  rewrite lookup_delete_eq. cbn. split; [reflexivity|].
  split; [reflexivity|]. apply lookup_delete_eq.
Qed.

(* ===================================================================== *)
(** ** The statements at the sample inputs                                *)
(* ===================================================================== *)

Lemma sample_table : table sample = {[ 1 := user_row 1 (JStr "alice") ]}.
Proof. reflexivity. Qed.

Lemma sample_keyed : keyed "id" (table sample).
Proof.
  rewrite sample_table. intros k row [<- <-]%lookup_singleton_Some. reflexivity.
Qed.

Lemma sample_consistent : consistent sample.
Proof.
  split; [exact sample_keyed|]. rewrite sample_table. split.
  - intros k row [<- <-]%lookup_singleton_Some. reflexivity.
  - intros i j ri rj v [<- <-]%lookup_singleton_Some [<- <-]%lookup_singleton_Some.
    reflexivity.
Qed.

Lemma sample_shaped : shaped user_columns (table sample).
Proof.
  rewrite sample_table. intros k row [<- <-]%lookup_singleton_Some.
  unfold user_row, user_columns. rewrite !dom_insert_L, dom_singleton_L.
  set_solver.
Qed.

Lemma library_table :
  table library =
    {[ 1 := readme_row 1 (JStr "alice") (JStr "alice@example.com") 3 3;
       2 := readme_row 2 (JStr "dave") (JStr "dave@example.com") 3 3 ]}.
Proof. reflexivity. Qed.

Lemma library_keyed : keyed "id" (table library).
Proof.
  rewrite library_table.
  intros k row [[<- <-]|[_ [<- <-]%lookup_singleton_Some]]%lookup_insert_Some;
    reflexivity.
Qed.

Lemma library_fresh : fresh (table library) (next_id library).
Proof.
  rewrite library_table.
  intros k row [[<- <-]|[_ [<- <-]%lookup_singleton_Some]]%lookup_insert_Some;
    reflexivity.
Qed.

Lemma library_up n : up library n = true.
Proof. reflexivity. Qed.


(** C2 at PUT /users/1 with username bob, email bob@example.com and
    age 30, on the README's table. *)
Lemma update_by_id_at_library :
  let out := Readme.update_user (readme_user (fun s => s)) put_bob library in
  let changes := pick ["username"; "email"] (body put_bob) in
  out.1 = Ok tt ∧
  next_id out.2 = next_id library ∧
  match table library !! 1 with
  | None =>
      responses out.2 =
        (responses library ++ [mkResponse 404 (Text "User not found")])%list ∧
      table out.2 = table library
  | Some row =>
      let row' := <["updatedAt" := JDate (now library)]> (changes ∪ row) in
      if bool_decide (changes !! "username" = Some JNull ∨
                      changes !! "email" = Some JNull)
      then rejected library out.2
      else if bool_decide (changes ∪ row = row)
      then
        table out.2 = table library ∧
        queries out.2 =
          (queries library ++ [("mysql", SelectByPk "User" 1)])%list ∧
        ∃ r, responses out.2 = (responses library ++ [mkResponse 200 (Json r)])%list ∧
             ∀ n, n ≠ "updatedAt" → r !! n = row !! n
      else if match changes !! "email" with
              | Some e => taken (table library) (Some 1) "email" e
              | None => false
              end
      then rejected library out.2
      else
        responses out.2 = (responses library ++ [mkResponse 200 (Json row')])%list ∧
        table out.2 = <[1 := row']> (table library) ∧
        ∀ n, n ∉ ["username"; "email"; "updatedAt"] → row' !! n = row !! n
  end.
Proof.
  apply (update_by_id (fun s => s) put_bob library 1);
    [reflexivity | exact library_keyed | reflexivity | reflexivity].
Defined.


(** C4 at GET /users/1. *)
Lemma read_by_id_at_sample :
  Readme.get_user (Index.User (fun s => s)) about_1 sample =
    (Ok tt,
     responded
       (match table sample !! 1 with
        | Some row => mkResponse 200 (Json row)
        | None => mkResponse 404 (Text "User not found")
        end)
       (sent (dialect_of (Index.User (fun s => s)))
             (SelectByPk (tableName (Index.User (fun s => s))) 1) sample)).
Proof.
  apply (read_by_id (Index.User (fun s => s)) about_1 sample 1); reflexivity.
Defined.

(** C5 at DELETE /users/1 followed by GET /users/1. *)
Lemma delete_then_read_at_sample :
  ∃ w1 w2,
    Readme.delete_user (Index.User (fun s => s)) about_1 sample = (Ok tt, w1) ∧
    table w1 = delete 1 (table sample) ∧
    responses w1 =
      (responses sample ++
       [mkResponse 200 (Json {[ "message" := JStr "User deleted successfully" ]})])%list ∧
    Readme.get_user (Index.User (fun s => s)) about_1 w1 = (Ok tt, w2) ∧
    responses w2 = (responses w1 ++ [mkResponse 404 (Text "User not found")])%list ∧
    table w2 !! 1 = None.
Proof.
  apply (delete_then_read (Index.User (fun s => s)) about_1 sample 1
           (user_row 1 (JStr "alice"))); reflexivity.
Defined.

(** C8 at the creation of carol, no age given. *)
Lemma id_and_age_columns_at_sample :
  attribute_of (Index.User (fun s => s)) "id" =
    Some (mkAttribute INTEGER true false true true None) ∧
  primaryKeyAttribute (Index.User (fun s => s)) = "id" ∧
  attribute_of (Index.User (fun s => s)) "age" =
    Some (mkAttribute INTEGER true false false false (Some (JNum 22))) ∧
  ∃ inst w' stored,
    create (Index.User (fun s => s)) (body post_carol_bare) sample = (Ok inst, w') ∧
    inst !! "id" = Some (JNum (next_id sample)) ∧
    inst !! "age" = Some (default (JNum 22) (body post_carol_bare !! "age")) ∧
    table w' = <[next_id sample := stored]> (table sample) ∧
    stored !! "id" = Some (JNum (next_id sample)) ∧
    stored !! "age" = Some (default (JNum 22) (body post_carol_bare !! "age")) ∧
    next_id w' = next_id sample + 1.
Proof.
  apply (id_and_age_columns (fun s => s) (body post_carol_bare) sample (JStr "carol"));
    [reflexivity | reflexivity | discriminate | vm_compute; reflexivity
    | exact (proj1 (proj2 sample_consistent)) | reflexivity].
Defined.

(** C9 at the sample table. *)
Lemma user_rows_have_four_attributes_at_sample :
  let U := Index.User (fun s => s) in
  column_names U = ["id"; "username"; "password"; "age"] ∧
  timestamps (modelOptions U) = false ∧
  attribute_of U "createdAt" = None ∧
  attribute_of U "updatedAt" = None ∧
  column_names (readme_user (fun s => s)) =
    ["id"; "username"; "email"; "createdAt"; "updatedAt"] ∧
  (∀ db counter clock net,
     let w0 := run (Index.main (fun s => s)) (boot db counter clock net) in
     if net 1%nat && net 2%nat then shaped user_columns (table w0)
     else table w0 = db) ∧
  (∀ values,
     shaped user_columns (table (create U values sample).2) ∧
     ∀ inst w', create U values sample = (Ok inst, w') →
       dom inst ⊆ user_columns ∧
       ∃ k row, inst !! "id" = Some (JNum k) ∧ table w' !! k = Some row ∧
                dom row = user_columns ∧ inst ⊆ row) ∧
  (∀ k inst values, table sample !! k = Some inst →
     shaped user_columns (table (update U inst values sample).2) ∧
     ∀ inst' w', update U inst values sample = (Ok inst', w') →
       dom inst' = user_columns) ∧
  (∀ k inst, table sample !! k = Some inst →
     shaped user_columns (table (destroy U inst sample).2)) ∧
  (∀ k row w', findByPk U (Some k) sample = (Ok (Some row), w') →
     dom row = user_columns).
Proof.
  apply (user_rows_have_four_attributes (fun s => s) sample). exact sample_shaped.
Defined.

(* ===================================================================== *)
(** ** Beyond the statements above                                        *)
(* ===================================================================== *)

(** *** The startup of the README's app.js *)

Section ReadmeStartup.
Variable pluralize : string -> string.
Variables (db : gmap Z obj) (counter clock : Z) (net : nat -> bool).

Lemma readme_run :
  run (Readme.main pluralize) (boot db counter clock net) =
  let t := pluralize "User" in
  let cols := ["id"; "username"; "email"; "createdAt"; "updatedAt"] in
  let listening_line := "Server is running on http://localhost:3000" in
  if net 0%nat then
    if net 1%nat then
      if net 2%nat then
        mkWorld {[ 1 := john_row clock ]} 2 clock net 3
          [("mysql", DropTableIfExists t); ("mysql", CreateTableIfNotExists t cols);
           ("mysql", Insert t)]
          [listening_line; "Database synced"] [] [3000] None
      else
        mkWorld ∅ 1 clock net 3
          [("mysql", DropTableIfExists t); ("mysql", CreateTableIfNotExists t cols);
           ("mysql", Insert t)]
          [listening_line; "Database synced"] [] [3000] (Some ConnectionError)
    else
      mkWorld ∅ 1 clock net 2
        [("mysql", DropTableIfExists t); ("mysql", CreateTableIfNotExists t cols)]
        [listening_line] [] [3000] (Some ConnectionError)
  else
    mkWorld db counter clock net 1
      [("mysql", DropTableIfExists t)]
      [listening_line] [] [3000] (Some ConnectionError).
Proof.
  unfold run, Readme.main; cbn.
  unfold Readme.sync_chain, Readme.listen_call, listen, sync_all.
  step_eff.
  destruct (net 0%nat); step_eff; [|reflexivity].
  destruct (net 1%nat); step_eff; [|reflexivity].
  unfold detach. rewrite create_run. cbv zeta. step_eff.
  destruct (net 2%nat); [|reflexivity].
  vm_compute. reflexivity.
Qed.
End ReadmeStartup.

(** *** The handlers, beyond the statements above *)

(** X1: with the database reachable, GET /users answers 200 with a list
    that has one entry per row of the table, the rows and nothing else,
    and sends one SELECT. *)
Theorem list_users (User : model) (req : request) (w : world) :
  up w (tick w) = true →
  ∃ l,
    Readme.get_users User req w =
      (Ok tt, responded (mkResponse 200 (JsonList l))
                (sent (dialect_of User) (SelectAll (tableName User)) w)) ∧
    length l = size (table w) ∧
    ∀ row, row ∈ l ↔ ∃ k, table w !! k = Some row.
Proof.
  intros Hup. exists (map snd (map_to_list (table w))). split; [|split].
  - unfold Readme.get_users, Readme.get_users_try, try_catch, bind, findAll, bind,
      roundtrip. rewrite Hup. reflexivity.
  - rewrite length_map. apply length_map_to_list.
  - intros row. rewrite list_elem_of_In, in_map_iff. split.
    + intros ([k r] & <- & Hin). exists k.
      apply elem_of_map_to_list, list_elem_of_In. exact Hin.
    + intros (k & Hk). exists (k, row). split; [reflexivity|].
      apply list_elem_of_In, elem_of_map_to_list. exact Hk.
Qed.

(** X2: with the database reachable, DELETE /users/:id on an id no row
    has answers 404 "User not found"; only the lookup was sent, so no
    row is deleted. *)
Theorem delete_absent (User : model) (req : request) (w : world) (k : Z) :
  params req !! "id" = Some k →
  table w !! k = None →
  up w (tick w) = true →
  Readme.delete_user User req w =
    (Ok tt, responded (mkResponse 404 (Text "User not found"))
              (sent (dialect_of User) (SelectByPk (tableName User) k) w)).
Proof.
  intros Hid Hk Hup.
  unfold Readme.delete_user, Readme.delete_user_try, try_catch, bind.
  rewrite Hid, findByPk_run, Hup. cbv beta iota. rewrite Hk. reflexivity.
Qed.

(** X3: GET /users and GET /users/:id never change the table or its
    counter, whatever the request and whether or not the database
    answers. *)
Theorem reads_change_nothing (User : model) (req : request) (w : world) :
  table (Readme.get_users User req w).2 = table w ∧
  next_id (Readme.get_users User req w).2 = next_id w ∧
  table (Readme.get_user User req w).2 = table w ∧
  next_id (Readme.get_user User req w).2 = next_id w.
Proof.
  split; [|split; [|split]].
  1,2: unfold Readme.get_users, Readme.get_users_try, try_catch, bind, findAll,
         bind, roundtrip; destruct (up w (tick w)); reflexivity.
  all: unfold Readme.get_user, Readme.get_user_try, try_catch, bind;
    destruct (params req !! "id") as [k|]; [|reflexivity];
    rewrite findByPk_run; destruct (up w (tick w)); [|reflexivity];
    cbv beta iota; destruct (table w !! k); reflexivity.
Qed.

(** X4: on a table keyed by the primary key, PUT /users/:id and
    DELETE /users/:id leave every row with another id as it was. *)
Theorem writes_touch_one_row (User : model) (req : request) (w : world) (k j : Z) :
  params req !! "id" = Some k →
  keyed (primaryKeyAttribute User) (table w) →
  j ≠ k →
  table (Readme.update_user User req w).2 !! j = table w !! j ∧
  table (Readme.delete_user User req w).2 !! j = table w !! j.
Proof.
  intros Hid Hkeyed Hj. split.
  - unfold Readme.update_user, Readme.update_user_try, try_catch, bind.
    rewrite Hid, findByPk_run. destruct (up w (tick w)); [|reflexivity].
    cbv beta iota. destruct (table w !! k) as [inst|] eqn:Hk; [|reflexivity].
    rewrite update_run. cbv zeta.
    destruct (notNull_violation_in _ _); [reflexivity|].
    destruct (bool_decide (changes_of User _ = ∅)); [reflexivity|].
    destruct (bool_decide (changes_of User _ ∪ inst = inst)); [reflexivity|].
    rewrite (Hkeyed _ _ Hk). cbn [up tick sent].
    destruct (up w (S (tick w))); [|reflexivity].
    destruct (unique_violation _ _ _ _); [reflexivity|].
    unfold set_table, sent, res_json, modify, responded.
    cbn [table fst snd]. rewrite Hk. apply lookup_insert_ne. congruence.
  - unfold Readme.delete_user, Readme.delete_user_try, try_catch, bind.
    rewrite Hid, findByPk_run. destruct (up w (tick w)); [|reflexivity].
    cbv beta iota. destruct (table w !! k) as [inst|] eqn:Hk; [|reflexivity].
    rewrite destroy_run, (Hkeyed _ _ Hk). cbn [up tick sent].
    destruct (up w (S (tick w))); [|reflexivity].
    unfold set_table, sent, res_json, modify, responded.
    cbn [table fst snd]. apply lookup_delete_ne. congruence.
Qed.

Lemma pick_ext ks (o1 o2 : obj) :
  (∀ k, k ∈ ks → o1 !! k = o2 !! k) → pick ks o1 = pick ks o2.
Proof.
  intros H. apply map_eq. intros i. rewrite !lookup_pick.
  case_bool_decide as Hi; [apply H; exact Hi|reflexivity].
Qed.

(** X5: POST /users and PUT /users/:id read the body's [username] and
    [email] and nothing else: two requests that agree on these (and on
    the id) have the same effect, whatever else their bodies hold. *)
Theorem body_is_read_for_username_and_email
    (User : model) (req1 req2 : request) (w : world) :
  params req1 !! "id" = params req2 !! "id" →
  body req1 !! "username" = body req2 !! "username" →
  body req1 !! "email" = body req2 !! "email" →
  Readme.create_user User req1 w = Readme.create_user User req2 w ∧
  Readme.update_user User req1 w = Readme.update_user User req2 w.
Proof.
  intros Hid Hu He.
  assert (pick ["username"; "email"] (body req1) =
          pick ["username"; "email"] (body req2)) as Hp.
  { apply pick_ext. intros k Hk. rewrite !elem_of_cons, elem_of_nil in Hk.
    destruct Hk as [->|[->|[]]]; assumption. }
  split.
  - unfold Readme.create_user, Readme.create_user_try. rewrite Hp. reflexivity.
  - unfold Readme.update_user, Readme.update_user_try. rewrite Hp, Hid. reflexivity.
Qed.

(** *** The README's application on its own model *)

(** X7: on the README's application, the same POST /users sent again
    after it went through is rejected with 500, its email now taken (or
    the database out of reach), and stores nothing: the rows are as the
    first request left them. *)
Theorem second_post_is_rejected (pluralize : string -> string) (req : request)
    (w : world) (u e : value) :
  fresh (table w) (next_id w) →
  body req !! "username" = Some u →
  body req !! "email" = Some e →
  u ≠ JNull → e ≠ JNull →
  taken (table w) None "email" e = false →
  up w (tick w) = true →
  ∃ w1 w2,
    Readme.create_user (readme_user pluralize) req w = (Ok tt, w1) ∧
    table w1 =
      <[next_id w := readme_row (next_id w) u e (now w) (now w)]> (table w) ∧
    Readme.create_user (readme_user pluralize) req w1 = (Ok tt, w2) ∧
    rejected w1 w2.
Proof.
  intros Hf Hu He Hun Hen Ht Hup.
  rewrite (R_post_run pluralize req w u e Hu He Hun Hen). cbv zeta.
  rewrite Hup, Ht, (fresh_none _ _ Hf).
  match goal with |- ∃ w1 w2, (_, ?W) = _ ∧ _ =>
    exists W, (Readme.create_user (readme_user pluralize) req W).2;
    split; [reflexivity|]; split; [reflexivity|];
    rewrite (R_post_run pluralize req W u e Hu He Hun Hen)
  end.
  cbv zeta.
  match goal with |- context [taken ?tbl None "email" e] =>
    assert (taken tbl None "email" e = true) as ->
  end.
  { apply taken_true. exists (next_id w), (readme_row (next_id w) u e (now w) (now w)).
    split; [apply lookup_insert_eq|]. split; [discriminate|apply readme_row_email]. }
  cbv iota.
  match goal with |- context [if up ?x ?n then _ else _] => destruct (up x n) end;
    repeat split.
Qed.

Lemma put_absent (User : model) req w k :
  params req !! "id" = Some k →
  table w !! k = None →
  up w (tick w) = true →
  Readme.update_user User req w =
    (Ok tt, responded (mkResponse 404 (Text "User not found"))
              (sent (dialect_of User) (SelectByPk (tableName User) k) w)).
Proof.
  intros Hid Hk Hup.
  unfold Readme.update_user, Readme.update_user_try, try_catch, bind.
  rewrite Hid, findByPk_run, Hup. cbv beta iota. rewrite Hk. reflexivity.
Qed.

Lemma saved_again (changes row : obj) t :
  changes !! "updatedAt" = None →
  changes ∪ <["updatedAt" := JDate t]> (changes ∪ row)
  = <["updatedAt" := JDate t]> (changes ∪ row).
Proof.
  intros Hc. apply map_eq. intros i. rewrite lookup_union.
  destruct (changes !! i) as [x|] eqn:Hi.
  - assert (i ≠ "updatedAt") as Hne by congruence.
    rewrite lookup_insert_ne by congruence.
    rewrite (lookup_union_Some_l _ _ _ _ Hi). reflexivity.
  - rewrite (left_id_L None _). reflexivity.
Qed.

(** X8: on the README's application, with the database reachable,
    PUT /users/:id sent a second time changes no row: the table stays
    as the first request left it, the second request is answered with
    the status of the first, and where the first was answered 200 the
    second sends the database its lookup and nothing else. *)
Theorem put_is_idempotent (pluralize : string -> string) (req : request)
    (w : world) (k : Z) :
  params req !! "id" = Some k →
  keyed "id" (table w) →
  (∀ n, up w n = true) →
  let w1 := (Readme.update_user (readme_user pluralize) req w).2 in
  let w2 := (Readme.update_user (readme_user pluralize) req w1).2 in
  table w2 = table w1 ∧
  status <$> last (responses w2) = status <$> last (responses w1) ∧
  (status <$> last (responses w1) = Some 200 →
   queries w2 = (queries w1 ++ [("mysql", SelectByPk (pluralize "User") k)])%list).
Proof.
  intros Hid Hk Hup w1 w2. subst w2 w1.
  destruct (table w !! k) as [row|] eqn:Hrow.
  - rewrite (R_put_run pluralize req w k row Hid Hrow (Hk _ _ Hrow) (Hup _)).
    cbv zeta. rewrite Hup.
    set (changes := pick ["username"; "email"] (body req)).
    assert (changes !! "updatedAt" = None) as Hstamp.
    { unfold changes. rewrite lookup_pick. reflexivity. }
    assert (changes !! "id" = None) as Hcid.
    { unfold changes. rewrite lookup_pick. reflexivity. }
    destruct (bool_decide (changes !! "username" = Some JNull)) eqn:Hnu.
    { unfold fail500. cbn [snd].
      match goal with |- context [Readme.update_user _ req ?w'] =>
        rewrite (R_put_run pluralize req w' k row Hid
                   (Hrow : table w' !! k = Some row) (Hk _ _ Hrow) (Hup _)) end.
      cbv zeta. fold changes. rewrite Hnu. unfold fail500.
      cbn [snd table responses responded logged sent]. rewrite !last_snoc.
      split; [reflexivity|]. split; [reflexivity|]. discriminate. }
    destruct (bool_decide (changes !! "email" = Some JNull)) eqn:Hne.
    { unfold fail500. cbn [snd].
      match goal with |- context [Readme.update_user _ req ?w'] =>
        rewrite (R_put_run pluralize req w' k row Hid
                   (Hrow : table w' !! k = Some row) (Hk _ _ Hrow) (Hup _)) end.
      cbv zeta. fold changes. rewrite Hnu, Hne. unfold fail500.
      cbn [snd table responses responded logged sent]. rewrite !last_snoc.
      split; [reflexivity|]. split; [reflexivity|]. discriminate. }
    destruct (bool_decide (changes = ∅)) eqn:Hempty.
    { cbn [snd].
      match goal with |- context [Readme.update_user _ req ?w'] =>
        rewrite (R_put_run pluralize req w' k row Hid
                   (Hrow : table w' !! k = Some row) (Hk _ _ Hrow) (Hup _)) end.
      cbv zeta. fold changes. rewrite Hnu, Hne, Hempty.
      cbn [snd table responses queries responded logged sent]. rewrite !last_snoc.
      split; [reflexivity|]. split; reflexivity. }
    destruct (bool_decide (changes ∪ row = row)) eqn:Hsame.
    { cbn [snd].
      match goal with |- context [Readme.update_user _ req ?w'] =>
        rewrite (R_put_run pluralize req w' k row Hid
                   (Hrow : table w' !! k = Some row) (Hk _ _ Hrow) (Hup _)) end.
      cbv zeta. fold changes. rewrite Hnu, Hne, Hempty, Hsame.
      cbn [snd table responses queries responded logged sent]. rewrite !last_snoc.
      split; [reflexivity|]. split; reflexivity. }
    destruct (match changes !! "email" with
              | Some e => taken (table w) (Some k) "email" e
              | None => false
              end) eqn:Htaken.
    { unfold fail500. cbn [snd].
      match goal with |- context [Readme.update_user _ req ?w'] =>
        rewrite (R_put_run pluralize req w' k row Hid
                   (Hrow : table w' !! k = Some row) (Hk _ _ Hrow) (Hup _)) end.
      cbv zeta. fold changes. rewrite Hnu, Hne, Hempty, Hsame.
      cbn [up tick table responded logged sent]. rewrite Hup, Htaken. unfold fail500.
      cbn [snd table responses responded logged sent]. rewrite !last_snoc.
      split; [reflexivity|]. split; [reflexivity|]. discriminate. }
    cbn [snd].
    set (row' := <["updatedAt" := JDate (now w)]> (changes ∪ row)).
    assert (row' !! "id" = Some (JNum k)) as Hpk'.
    { unfold row'. rewrite lookup_insert_ne by discriminate.
      rewrite lookup_union_r by exact Hcid. exact (Hk _ _ Hrow). }
    match goal with |- context [Readme.update_user _ req ?w'] =>
      rewrite (R_put_run pluralize req w' k row' Hid
                 (lookup_insert_eq (table w) k row' : table w' !! k = Some row')
                 Hpk' (Hup _)) end.
    cbv zeta. fold changes. rewrite Hnu, Hne, Hempty.
    rewrite (bool_decide_eq_true_2 (changes ∪ row' = row'))
      by (apply saved_again; exact Hstamp).
    cbn [snd table responses queries responded logged sent set_table].
    rewrite !last_snoc.
    split; [reflexivity|]. split; reflexivity.
  - rewrite (put_absent _ req w k Hid Hrow (Hup _)). cbn [snd].
    match goal with |- context [Readme.update_user _ req ?w'] =>
      rewrite (put_absent _ req w' k Hid (Hrow : table w' !! k = None) (Hup _)) end.
    cbn [snd table responses queries responded sent]. rewrite !last_snoc.
    split; [reflexivity|]. split; [reflexivity|]. discriminate.
Qed.

(** *** The startup of the README's app.js, continued *)

(** X10: the startup of the README's app.js with the database
    reachable: whatever the table held, it ends holding exactly the
    sample user john_doe under id 1, stamped with the clock; the
    counter is 2, the server listens on 3000 and nothing has failed. *)
Theorem readme_startup_replaces_the_table
    (pluralize : string -> string)
    (db : gmap Z obj) (counter clock : Z) (net : nat -> bool) :
  net 0%nat = true → net 1%nat = true → net 2%nat = true →
  let w := run (Readme.main pluralize) (boot db counter clock net) in
  table w = {[ 1 := john_row clock ]} ∧
  next_id w = 2 ∧
  console w = ["Server is running on http://localhost:3000"; "Database synced"] ∧
  listening w = [3000] ∧
  exited w = None.
Proof.
  intros H0 H1 H2 w. subst w. rewrite readme_run. cbv zeta.
  rewrite H0, H1, H2. repeat split.
Qed.


(** *** The virtual fullName *)

Lemma split_spaceless s : spaceless s = true → FullName.split " " s = [s].
Proof.
  induction s as [|c s IH]; [reflexivity|]. cbn [FullName.split spaceless].
  intros [Hc Hs]%andb_true_iff. apply negb_true_iff in Hc. rewrite Hc.
  rewrite (IH Hs). reflexivity.
Qed.

Lemma split_word s rest :
  spaceless s = true →
  FullName.split " " (s ++ " " ++ rest) = s :: FullName.split " " rest.
Proof.
  induction s as [|c s IH]; [reflexivity|].
  change (String c s ++ " " ++ rest) with (String c (s ++ " " ++ rest)).
  cbn [FullName.split spaceless].
  intros [Hc Hs]%andb_true_iff. apply negb_true_iff in Hc. rewrite Hc.
  rewrite (IH Hs). reflexivity.
Qed.

Section FullNameProps.
Variables (number_string date_string : Z -> string).
Local Abbreviation get_fullName := (FullName.get_fullName number_string date_string).

(** X12: the virtual [fullName]: setting "first last", with no space
    inside either name, and reading it back gives the same string. *)
Theorem fullName_round_trip (first last : string) (this : obj) :
  spaceless first = true → spaceless last = true →
  get_fullName (FullName.set_fullName (first ++ " " ++ last) this)
  = first ++ " " ++ last.
Proof.
  intros Hf Hl. unfold FullName.set_fullName, FullName.get_fullName. cbv zeta.
  rewrite (split_word first last Hf), (split_spaceless last Hl). cbn [lookup list_lookup fmap option_fmap option_map FullName.setDataValue].
  rewrite lookup_insert_ne by discriminate. rewrite !lookup_insert_eq.
  reflexivity.
Qed.

(** X13: setting [fullName] to a single word sets [firstName] to it and
    leaves [lastName] undefined, whatever it was; the getter then reads
    the word followed by " undefined". *)
Theorem fullName_single_word (word : string) (this : obj) :
  spaceless word = true →
  FullName.set_fullName word this
    = delete "lastName" (<["firstName" := JStr word]> this) ∧
  get_fullName (FullName.set_fullName word this) = word ++ " undefined".
Proof.
  intros Hw. unfold FullName.set_fullName, FullName.get_fullName. cbv zeta.
  rewrite (split_spaceless word Hw). cbn [lookup list_lookup fmap option_fmap option_map FullName.setDataValue].
  split; [reflexivity|].
  rewrite lookup_delete_ne by discriminate. rewrite lookup_insert_eq, lookup_delete_eq.
  reflexivity.
Qed.

(** X14: the [fullName] setter keeps the first two words: whatever
    follows the second word is dropped. *)
Theorem fullName_drops_further_words (first last rest : string) (this : obj) :
  spaceless first = true → spaceless last = true →
  FullName.set_fullName (first ++ " " ++ last ++ " " ++ rest) this
  = FullName.set_fullName (first ++ " " ++ last) this.
Proof.
  intros Hf Hl. unfold FullName.set_fullName. cbv zeta.
  rewrite (split_word first (last ++ " " ++ rest) Hf), (split_word last rest Hl).
  rewrite (split_word first last Hf), (split_spaceless last Hl). reflexivity.
Qed.

End FullNameProps.

(** *** These statements at the sample inputs *)

(** X1 at the sample table. *)
Lemma list_users_at_sample :
  ∃ l,
    Readme.get_users (Index.User (fun s => s)) about_1 sample =
      (Ok tt, responded (mkResponse 200 (JsonList l))
                (sent (dialect_of (Index.User (fun s => s)))
                      (SelectAll (tableName (Index.User (fun s => s)))) sample)) ∧
    length l = size (table sample) ∧
    ∀ row, row ∈ l ↔ ∃ k, table sample !! k = Some row.
Proof.
  apply (list_users (Index.User (fun s => s)) about_1 sample). reflexivity.
Defined.

(** X2 at DELETE /users/7. *)
Lemma delete_absent_at_sample :
  Readme.delete_user (Index.User (fun s => s)) about_7 sample =
    (Ok tt, responded (mkResponse 404 (Text "User not found"))
              (sent (dialect_of (Index.User (fun s => s)))
                    (SelectByPk (tableName (Index.User (fun s => s))) 7) sample)).
Proof.
  apply (delete_absent (Index.User (fun s => s)) about_7 sample 7); reflexivity.
Defined.

(** X4 at PUT and DELETE /users/1 on the README's table, seen from
    dave's row: alice's row is rewritten, then deleted. *)
Lemma writes_touch_one_row_at_library :
  table (Readme.update_user (readme_user (fun s => s)) put_bob library).2 !! 2
    = table library !! 2 ∧
  table (Readme.delete_user (readme_user (fun s => s)) put_bob library).2 !! 2
    = table library !! 2.
Proof.
  apply (writes_touch_one_row (readme_user (fun s => s)) put_bob library 1 2);
    [reflexivity | exact library_keyed | discriminate].
Defined.

(** X5 at carol's two bodies. *)
Lemma body_is_read_for_username_and_email_at_sample :
  Readme.create_user (Index.User (fun s => s)) post_carol sample
    = Readme.create_user (Index.User (fun s => s)) post_carol_bare sample ∧
  Readme.update_user (Index.User (fun s => s)) post_carol sample
    = Readme.update_user (Index.User (fun s => s)) post_carol_bare sample.
Proof.
  apply (body_is_read_for_username_and_email (Index.User (fun s => s))
           post_carol post_carol_bare sample); reflexivity.
Defined.

(** X7 at the creation of erin, twice. *)
Lemma second_post_is_rejected_at_library :
  ∃ w1 w2,
    Readme.create_user (readme_user (fun s => s)) post_erin library = (Ok tt, w1) ∧
    table w1 =
      <[next_id library :=
          readme_row (next_id library) (JStr "erin") (JStr "erin@example.com")
            (now library) (now library)]> (table library) ∧
    Readme.create_user (readme_user (fun s => s)) post_erin w1 = (Ok tt, w2) ∧
    rejected w1 w2.
Proof.
  apply (second_post_is_rejected (fun s => s) post_erin library
           (JStr "erin") (JStr "erin@example.com"));
    [exact library_fresh | reflexivity | reflexivity | discriminate | discriminate
    | vm_compute; reflexivity | reflexivity].
Defined.

(** X8 at PUT /users/1 with username bob and email bob@example.com,
    twice. *)
Lemma put_is_idempotent_at_library :
  let w1 := (Readme.update_user (readme_user (fun s => s)) put_bob library).2 in
  let w2 := (Readme.update_user (readme_user (fun s => s)) put_bob w1).2 in
  table w2 = table w1 ∧
  status <$> last (responses w2) = status <$> last (responses w1) ∧
  (status <$> last (responses w1) = Some 200 →
   queries w2 = (queries w1 ++ [("mysql", SelectByPk "User" 1)])%list).
Proof.
  apply (put_is_idempotent (fun s => s) put_bob library 1);
    [reflexivity | exact library_keyed | exact library_up].
Defined.

(** X10 at a start on alice's table. *)
Lemma readme_startup_replaces_the_table_at_sample :
  let w := run (Readme.main (fun s => s))
               (boot {[ 1 := user_row 1 (JStr "alice") ]} 2 0 (fun _ => true)) in
  table w = {[ 1 := john_row 0 ]} ∧
  next_id w = 2 ∧
  console w = ["Server is running on http://localhost:3000"; "Database synced"] ∧
  listening w = [3000] ∧
  exited w = None.
Proof.
  apply (readme_startup_replaces_the_table (fun s => s)
           {[ 1 := user_row 1 (JStr "alice") ]} 2 0 (fun _ => true)); reflexivity.
Defined.

(** X12 at "John Doe". *)
Lemma fullName_round_trip_at_sample :
  FullName.get_fullName (fun _ => "") (fun _ => "")
    (FullName.set_fullName ("John" ++ " " ++ "Doe") ∅)
  = "John" ++ " " ++ "Doe".
Proof.
  apply (fullName_round_trip (fun _ => "") (fun _ => "") "John" "Doe" ∅); reflexivity.
Defined.

(** X13 at "Cher", over an instance that had a last name. *)
Lemma fullName_single_word_at_sample :
  FullName.set_fullName "Cher" {[ "lastName" := JStr "Doe" ]}
    = delete "lastName" (<["firstName" := JStr "Cher"]> {[ "lastName" := JStr "Doe" ]}) ∧
  FullName.get_fullName (fun _ => "") (fun _ => "")
    (FullName.set_fullName "Cher" {[ "lastName" := JStr "Doe" ]})
  = "Cher" ++ " undefined".
Proof.
  apply (fullName_single_word (fun _ => "") (fun _ => "") "Cher"
           {[ "lastName" := JStr "Doe" ]}); reflexivity.
Defined.

(** X14 at "Mary Ann Smith". *)
Lemma fullName_drops_further_words_at_sample :
  FullName.set_fullName ("Mary" ++ " " ++ "Ann" ++ " " ++ "Smith") ∅
  = FullName.set_fullName ("Mary" ++ " " ++ "Ann") ∅.
Proof.
  apply (fullName_drops_further_words "Mary" "Ann" "Smith" ∅); reflexivity.
Defined.

(** X15 at the creation of carol, with a password and an age. *)
Lemma model_create_contract_at_sample :
  let U := Index.User (fun s => s) in
  let out := create U (body post_carol) sample in
  match body post_carol !! "username" with
  | None => out = (Throw (ValidationError "username"), sample)
  | Some v =>
      if bool_decide (v = JNull)
      then out = (Throw (ValidationError "username"), sample)
      else if up sample (tick sample) then
        if taken (table sample) None "username" v
        then out.1 = Throw (UniqueConstraintError "username") ∧
             table out.2 = table sample
        else
          ∃ inst,
            out.1 = Ok inst ∧
            inst !! "id" = Some (JNum (next_id sample)) ∧
            inst !! "username" = Some v ∧
            inst !! "password" = body post_carol !! "password" ∧
            inst !! "age" = Some (default (JNum 22) (body post_carol !! "age")) ∧
            table out.2 = <[next_id sample := complete U inst]> (table sample) ∧
            next_id out.2 = next_id sample + 1
      else out.1 = Throw ConnectionError ∧ table out.2 = table sample
  end ∧
  (∀ values', consistent (create U values' sample).2) ∧
  (∀ k inst values', table sample !! k = Some inst →
     consistent (update U inst values' sample).2) ∧
  (∀ k inst, table sample !! k = Some inst → consistent (destroy U inst sample).2) ∧
  consistent (findAll U sample).2 ∧
  (∀ param, consistent (findByPk U param sample).2).
Proof.
  apply (model_create_contract (fun s => s) (body post_carol) sample);
    [exact sample_consistent | reflexivity].
Defined.
